(** * Vegetation analysis: a shallow embedding of the analysis engine

    The component computes a vegetation mask from the RGBA bytes of an image,
    accumulates vegetation indices over the mask and over the whole image,
    and exports batch results as CSV.

    Conventions of the embedding:
    - JavaScript numbers that hold real values (normalised channels, index
      values, means, thresholds) are binary64 floats, Rocq's primitive
      [float], so NaN, the infinities and rounding are those of the program;
    - JavaScript numbers that only ever hold small integers (bytes, bin
      indices, pixel counts, histogram counts and their sums) are in [Z]:
      a typed array has fewer than 2^32 elements, so all of them stay far
      below 2^53, where binary64 arithmetic on integers is exact.  [Z2F]
      reads such an integer as the number it is;
    - JavaScript objects used as records keyed by strings are association
      lists in insertion order ([JsObject]);
    - an exception is a [Throw] in the [outcome] monad. *)

From Stdlib Require Import ZArith List String Ascii Bool Lia.
From Stdlib Require Import Floats DecimalString.
From Stdlib Require Import Permutation.
Import ListNotations.

Set Warnings "-inexact-float".
Local Open Scope string_scope.
Local Open Scope Z_scope.

(** ** Numbers *)

(** An integer-valued JavaScript number read as a binary64 value. *)
Definition Z2F (z : Z) : float :=
  match z with
  | Z0 => 0%float
  | Zpos _ => PrimFloat.of_uint63 (Uint63.of_Z z)
  | Zneg p => PrimFloat.opp (PrimFloat.of_uint63 (Uint63.of_Z (Zpos p)))
  end.

(** A running sum: starts at [0] and adds the values from left to right,
    as [acc += value] does in a loop. *)
Definition sumF (l : list float) : float :=
  fold_left PrimFloat.add l 0%float.

(** [Math.round (n / 4)] for an integer [n]: the quotient is an exact
    multiple of a quarter, and [Math.round] takes the nearest integer with
    ties towards plus infinity, that is the floor of [n/4 + 1/2]. *)
Definition Math_round_quarter (n : Z) : Z := (n + 2) / 4.

(** ** Exceptions *)

Inductive exn : Type :=
| TypeError (what : string)   (* a property read on [undefined] *)
| Rejected (what : string)    (* a rejected promise, thrown at [await] *)
| DOMException (name : string). (* an exception of a browser interface *)

Inductive outcome (A : Type) : Type :=
| Ok (a : A)
| Throw (e : exn).
Arguments Ok {A} a.
Arguments Throw {A} e.

Definition bind {A B : Type} (m : outcome A) (k : A -> outcome B) : outcome B :=
  match m with
  | Ok a => k a
  | Throw e => Throw e
  end.

Notation "x <- m ;; k" := (bind m (fun x => k))
  (at level 61, m at next level, right associativity).

(** [xs.forEach(step)] threading an accumulator, stopping at the first
    exception. *)
Fixpoint forEachM {A S : Type} (step : S -> A -> outcome S) (xs : list A)
    (s : S) : outcome S :=
  match xs with
  | [] => Ok s
  | x :: xs' => s' <- step s x ;; forEachM step xs' s'
  end.

(** [xs.map(f)] where [f] may throw. *)
Fixpoint mapM {A B : Type} (f : A -> outcome B) (xs : list A) : outcome (list B) :=
  match xs with
  | [] => Ok []
  | x :: xs' => y <- f x ;; ys <- mapM f xs' ;; Ok (y :: ys)
  end.

(** ** Objects keyed by strings *)

Definition JsObject (A : Type) : Type := list (string * A).

(** [o[k]]: [None] is [undefined]. *)
Fixpoint get {A : Type} (o : JsObject A) (k : string) : option A :=
  match o with
  | [] => None
  | (k', v) :: o' => if String.eqb k' k then Some v else get o' k
  end.

(** [o[k] = v]: overwrites in place, or appends a new property.  The key is
    taken to be an ordinary name, not [__proto__], whose assignment sets no
    property of the object. *)
Fixpoint assign {A : Type} (o : JsObject A) (k : string) (v : A) : JsObject A :=
  match o with
  | [] => [(k, v)]
  | (k', v') :: o' =>
      if String.eqb k' k then (k', v) :: o' else (k', v') :: assign o' k v
  end.

(** [Object.keys(o)] and [Object.entries(o)]. *)
Definition keys {A : Type} (o : JsObject A) : list string := map fst o.
Definition entries {A : Type} (o : JsObject A) : list (string * A) := o.

(** A numeric property read inside arithmetic: [undefined] becomes NaN. *)
Definition getNum (o : JsObject float) (k : string) : float :=
  match get o k with
  | Some v => v
  | None => nan
  end.

(** ** Types of the component *)

Definition SelectedIndices : Type := JsObject bool.

Record AnalysisResult : Type := {
  vegetationCoverage : float;
  vegetationPixels : Z;
  totalPixels : Z;
  indices_vegetation : JsObject float;
  indices_whole : JsObject float
}.

Record Algorithm : Type := {
  name : string;
  calculate : float -> float -> float -> float
}.

Inductive ThresholdMethod : Type := otsu | exg.

Definition ThresholdMethod_string (m : ThresholdMethod) : string :=
  match m with
  | otsu => "otsu"
  | exg => "exg"
  end.

(** The pixel data of a canvas: [data] holds four bytes (R, G, B, A) per
    pixel, row by row, so its length is [4 * width * height].  A canvas
    hands out no data of zero width or height ([canvasRule]). *)
Record ImageData : Type := {
  width : Z;
  height : Z;
  data : list Z
}.

Inductive Language : Type := ja | en.

(** The state of the component that the analysis reads. *)
Record State : Type := {
  state_threshold : float;
  state_thresholdMethod : ThresholdMethod;
  state_selectedIndices : SelectedIndices;
  state_language : Language;
  (* both canvas refs are mounted and both give a 2d context *)
  state_canvasReady : bool
}.

Record BatchRecord : Type := {
  filename : string;
  result : AnalysisResult
}.

(** The two entries of [t.errors]. *)
Inductive Message : Type := errors_processing | errors_batch.

(** What the handlers do to the page, in order. *)
Inductive effect : Type :=
| SetIsProcessing (b : bool)
| LoadImage (fileName : string)
| PutImageData (binaryData : list Z)
| SetProcessedImage (binaryData : list Z)
| SetAnalysisResult (r : AnalysisResult)
| ConsoleError (e : exn)
| Alert (lang : Language) (m : Message)
| Download (csvContent : string).

(** The effects of the upload handlers: those of the page, and the display
    of the original image. *)
Inductive uploadEffect : Type :=
| Page (e : effect)
| SetOriginalImage (src : string).

Definition byte_range (c : Z) : Prop := 0 <= c <= 255.

Definition wellFormed (img : ImageData) : Prop :=
  0 <= width img /\ 0 <= height img /\
  Z.of_nat (List.length (data img)) = 4 * (width img * height img) /\
  Forall byte_range (data img).

Definition Pixel : Type := (Z * Z * Z)%type.

(** The pixels visited by [for (let i = 0; i < data.length; i += 4)], which
    reads [data[i]], [data[i + 1]] and [data[i + 2]].  Alpha is never read.
    A last group of exactly three bytes is still a full read; a last group
    of one or two bytes does not occur in an [ImageData]. *)
Fixpoint pixels (d : list Z) : list Pixel :=
  match d with
  | r :: g :: b :: _ :: rest => (r, g, b) :: pixels rest
  | r :: g :: b :: nil => [(r, g, b)]
  | _ => []
  end.

(** ** The engine

    [Math.pow] is left to the host: ECMAScript only asks for an
    implementation-approximated value, so every definition below is
    parametric in it.  The same holds for the decimal rendering of a number
    of magnitude 10^21 or more, which is all [toFixed] needs from
    [Number.prototype.toString]. *)

Section Engine.

Set Default Proof Using "Type".

Variable Math_pow : float -> float -> float.
Variable Number_toString : float -> string.

(** *** The registry of vegetation indices ([ALGORITHMS]) *)

Definition INT_calculate (r g b : float) : float := ((r + g + b) / 3)%float.

Definition NRI_calculate (r g b : float) : float :=
  let total := (r + g + b)%float in
  if (0 <? total)%float then (r / total)%float else 0%float.

Definition NGI_calculate (r g b : float) : float :=
  let total := (r + g + b)%float in
  if (0 <? total)%float then (g / total)%float else 0%float.

Definition NBI_calculate (r g b : float) : float :=
  let total := (r + g + b)%float in
  if (0 <? total)%float then (b / total)%float else 0%float.

Definition RGRI_calculate (r g b : float) : float :=
  if (0 <? g)%float then (r / g)%float else 0%float.

Definition ExR_calculate (r g b : float) : float := (1.4 * r - g)%float.

Definition ExG_calculate (r g b : float) : float := (2 * g - r - b)%float.

Definition ExB_calculate (r g b : float) : float := (1.4 * b - g)%float.

Definition ExGR_calculate (r g b : float) : float :=
  ((2 * g - r - b) - (1.4 * r - g))%float.

Definition GRVI_calculate (r g b : float) : float :=
  let denom := (g + r)%float in
  if (0 <? denom)%float then ((g - r) / denom)%float else 0%float.

Definition VARI_calculate (r g b : float) : float :=
  let denom := (g + r - b)%float in
  if negb (denom =? 0)%float then ((g - r) / denom)%float else 0%float.

Definition GLI_calculate (r g b : float) : float :=
  let denom := (2 * g + r + b)%float in
  if negb (denom =? 0)%float then ((2 * g - r - b) / denom)%float else 0%float.

Definition GLA_calculate (r g b : float) : float :=
  let denom := (2 * g + r + b)%float in
  if negb (denom =? 0)%float then ((2 * g - r - b) / denom)%float else 0%float.

Definition MGRVI_calculate (r g b : float) : float :=
  let g2 := (g * g)%float in
  let r2 := (r * r)%float in
  ((g2 - r2) / (g2 + r2))%float.

Definition RGBVI_calculate (r g b : float) : float :=
  let g2 := (g * g)%float in
  let rb := (r * b)%float in
  ((g2 - rb) / (g2 + rb))%float.

Definition VEG_calculate (r g b : float) : float :=
  let a := 0.667%float in
  (g / (Math_pow r a * Math_pow b (1 - a)))%float.

Definition ALGORITHMS : JsObject Algorithm :=
  [ ("INT",   {| name := "Intensity"; calculate := INT_calculate |});
    ("NRI",   {| name := "Normalized Red Index"; calculate := NRI_calculate |});
    ("NGI",   {| name := "Normalized Green Index"; calculate := NGI_calculate |});
    ("NBI",   {| name := "Normalized Blue Index"; calculate := NBI_calculate |});
    ("RGRI",  {| name := "Red Green Ratio Index"; calculate := RGRI_calculate |});
    ("ExR",   {| name := "Excess Red Index"; calculate := ExR_calculate |});
    ("ExG",   {| name := "Excess Green Index"; calculate := ExG_calculate |});
    ("ExB",   {| name := "Excess Blue Index"; calculate := ExB_calculate |});
    ("ExGR",  {| name := "Excess Green minus Red Index"; calculate := ExGR_calculate |});
    ("GRVI",  {| name := "Green Red Vegetation Index"; calculate := GRVI_calculate |});
    ("VARI",  {| name := "Visible Atmospherically Resistant Index";
                 calculate := VARI_calculate |});
    ("GLI",   {| name := "Green Leaf Index"; calculate := GLI_calculate |});
    ("GLA",   {| name := "Green Leaf Algorithm"; calculate := GLA_calculate |});
    ("MGRVI", {| name := "Modified Green Red Vegetation Index";
                 calculate := MGRVI_calculate |});
    ("RGBVI", {| name := "Red Green Blue Vegetation Index";
                 calculate := RGBVI_calculate |});
    ("VEG",   {| name := "Vegetativen"; calculate := VEG_calculate |}) ].

(** [ALGORITHMS[key]] followed by a property read, which throws on
    [undefined].  The lookup is among the entries of the registry itself:
    the names that every object inherits ([toString], [constructor],
    [__proto__] and the like) are left out, and no selection that the page
    can reach holds one. *)
Definition algorithm (key : string) : outcome Algorithm :=
  match get ALGORITHMS key with
  | Some a => Ok a
  | None => Throw (TypeError key)
  end.

(** *** Otsu's threshold ([calculateOtsuThreshold]) *)

(** The histogram slot of a pixel:
    [Math.round(((2 * g - r - b) + 510) / 4)]. *)
Definition otsuBin (p : Pixel) : Z :=
  let '(r, g, b) := p in
  Math_round_quarter ((2 * g - r - b) + 510).

Fixpoint incrNat (h : list Z) (n : nat) : list Z :=
  match h, n with
  | [], _ => []
  | x :: h', O => (x + 1) :: h'
  | x :: h', S n' => x :: incrNat h' n'
  end.

(** [histogram[i]++] on the 256 slots.  An index outside the slots would
    not touch any of them; [otsuBin_range] shows that a pixel made of bytes
    never produces one. *)
Definition incrAt (h : list Z) (i : Z) : list Z :=
  if (0 <=? i) && (i <? Z.of_nat (List.length h))
  then incrNat h (Z.to_nat i)
  else h.

Definition buildHistogram (ps : list Pixel) : list Z :=
  fold_left (fun h p => incrAt h (otsuBin p)) ps (repeat 0 256).

(** [histogram[t]] *)
Definition slot (h : list Z) (t : Z) : Z := nth (Z.to_nat t) h 0.

(** [histogram.reduce((acc, val) => acc + val, 0)] *)
Definition histTotal (h : list Z) : Z := fold_left Z.add h 0.

(** [histogram.reduce((acc, val, idx) => acc + idx * val, 0)] *)
Fixpoint histWeighted (h : list Z) (idx acc : Z) : Z :=
  match h with
  | [] => acc
  | val :: h' => histWeighted h' (idx + 1) (acc + idx * val)
  end.

Record OtsuState : Type := {
  sumB : Z;
  wB : Z;
  wF : Z;
  maxVar : float;
  threshold : Z
}.

Definition otsuInit : OtsuState :=
  {| sumB := 0; wB := 0; wF := 0; maxVar := 0%float; threshold := 0 |}.

(** [for (let t = 0; t < 256; t++)], with [n] iterations left from [t]. *)
Fixpoint otsuScan (h : list Z) (total sum : Z) (n : nat) (t : Z)
    (s : OtsuState) : OtsuState :=
  match n with
  | O => s
  | S n' =>
      let wB' := wB s + slot h t in
      if wB' =? 0 then
        (* continue *)
        otsuScan h total sum n' (t + 1)
          {| sumB := sumB s; wB := wB'; wF := wF s;
             maxVar := maxVar s; threshold := threshold s |}
      else
        let wF' := total - wB' in
        if wF' =? 0 then
          (* break *)
          {| sumB := sumB s; wB := wB'; wF := wF';
             maxVar := maxVar s; threshold := threshold s |}
        else
          let sumB' := sumB s + t * slot h t in
          let mB := (Z2F sumB' / Z2F wB')%float in
          let mF := (Z2F (sum - sumB') / Z2F wF')%float in
          let variance := (Z2F wB' * Z2F wF' * Math_pow (mB - mF) 2)%float in
          if (maxVar s <? variance)%float then
            otsuScan h total sum n' (t + 1)
              {| sumB := sumB'; wB := wB'; wF := wF';
                 maxVar := variance; threshold := t |}
          else
            otsuScan h total sum n' (t + 1)
              {| sumB := sumB'; wB := wB'; wF := wF';
                 maxVar := maxVar s; threshold := threshold s |}
  end.

(** The winning slot, before it is mapped back to the ExG scale. *)
Definition otsuSlot (d : list Z) : Z :=
  let histogram := buildHistogram (pixels d) in
  let total := histTotal histogram in
  let sum := histWeighted histogram 0 0 in
  threshold (otsuScan histogram total sum 256 0 otsuInit).

Definition calculateOtsuThreshold (d : list Z) : float :=
  (Z2F (otsuSlot d * 4 - 510) / 510)%float.

(** *** Normalisation and the per-pixel pass ([processImage]) *)

Definition normalizeRGB (r g b : Z) : float * float * float :=
  let total := r + g + b in
  if total =? 0 then (0%float, 0%float, 0%float)
  else ((Z2F r / Z2F total)%float, (Z2F g / Z2F total)%float,
        (Z2F b / Z2F total)%float).

(** [exg] and [isVegetation] of one pixel. *)
Definition pixelExG (p : Pixel) : float :=
  let '(r, g, b) := p in
  let '(normalizedR, normalizedG, normalizedB) := normalizeRGB r g b in
  (2 * normalizedG - normalizedR - normalizedB)%float.

Definition isVegetation (currentThreshold : float) (p : Pixel) : bool :=
  (currentThreshold <=? pixelExG p)%float.

(** The value of the index [a] at a pixel. *)
Definition indexValue (a : Algorithm) (p : Pixel) : float :=
  let '(r, g, b) := p in
  let '(normalizedR, normalizedG, normalizedB) := normalizeRGB r g b in
  calculate a normalizedR normalizedG normalizedB.

(** The accumulators of the pass.  [vegetationMask] and [binaryData] are
    allocated for the whole image and written at the position of the
    current pixel, so they are kept here in pixel order. *)
Record PassState : Type := {
  pass_vegetationPixels : Z;
  pass_vegetationMask : list bool;
  pass_binaryData : list Z;
  pass_vegetationIndices : JsObject float;
  pass_wholeIndices : JsObject float
}.

(** The two records start with [0] under every selected key. *)
Definition initStep (selectedIndices : SelectedIndices)
    (acc : JsObject float * JsObject float) (key : string)
    : JsObject float * JsObject float :=
  let '(vegetationIndices, wholeIndices) := acc in
  match get selectedIndices key with
  | Some true => (assign vegetationIndices key 0%float, assign wholeIndices key 0%float)
  | _ => acc
  end.

Definition initIndices (selectedIndices : SelectedIndices)
    : JsObject float * JsObject float :=
  fold_left (initStep selectedIndices) (keys selectedIndices) ([], []).

(** [Object.entries(selectedIndices).forEach(...)] for one pixel. *)
Definition accumulateStep (p : Pixel) (isVeg : bool)
    (acc : JsObject float * JsObject float) (entry : string * bool)
    : outcome (JsObject float * JsObject float) :=
  let '(vegetationIndices, wholeIndices) := acc in
  let '(key, isSelected) := entry in
  if isSelected then
    a <- algorithm key ;;
    let value := indexValue a p in
    let wholeIndices' :=
      assign wholeIndices key (getNum wholeIndices key + value)%float in
    let vegetationIndices' :=
      if isVeg
      then assign vegetationIndices key (getNum vegetationIndices key + value)%float
      else vegetationIndices in
    Ok (vegetationIndices', wholeIndices')
  else Ok acc.

Definition accumulate (selectedIndices : SelectedIndices) (p : Pixel)
    (isVeg : bool) (acc : JsObject float * JsObject float)
    : outcome (JsObject float * JsObject float) :=
  forEachM (accumulateStep p isVeg) (entries selectedIndices) acc.

Definition pixelStep (currentThreshold : float)
    (selectedIndices : SelectedIndices) (s : PassState) (p : Pixel)
    : outcome PassState :=
  let isVeg := isVegetation currentThreshold p in
  acc <- accumulate selectedIndices p isVeg
           (pass_vegetationIndices s, pass_wholeIndices s) ;;
  Ok {| pass_vegetationPixels :=
          if isVeg then pass_vegetationPixels s + 1 else pass_vegetationPixels s;
        pass_vegetationMask := (pass_vegetationMask s ++ [isVeg])%list;
        pass_binaryData :=
          (pass_binaryData s ++
             (if isVeg then [255; 255; 255; 255] else [0; 0; 0; 255]))%list;
        pass_vegetationIndices := fst acc;
        pass_wholeIndices := snd acc |}.

(** The division of the sums by the counts, key by key. *)
Definition averageStep (totalPixels vegetationPixels : Z)
    (acc : JsObject float * JsObject float) (key : string)
    : JsObject float * JsObject float :=
  let '(vegetationIndices, wholeIndices) := acc in
  let wholeIndices' :=
    assign wholeIndices key (getNum wholeIndices key / Z2F totalPixels)%float in
  let vegetationIndices' :=
    assign vegetationIndices key
      (if 0 <? vegetationPixels
       then (getNum vegetationIndices key / Z2F vegetationPixels)%float
       else 0%float) in
  (vegetationIndices', wholeIndices').

Definition averages (totalPixels vegetationPixels : Z)
    (acc : JsObject float * JsObject float)
    : JsObject float * JsObject float :=
  fold_left (averageStep totalPixels vegetationPixels) (keys (snd acc)) acc.

(** The threshold in force: Otsu's, or the one of the slider. *)
Definition currentThreshold (thresholdMethod : ThresholdMethod) (threshold : float)
    (img : ImageData) : float :=
  match thresholdMethod with
  | otsu => calculateOtsuThreshold (data img)
  | exg => threshold
  end.

(** The analysis of one image once its pixel data is at hand: the threshold,
    the pass over the pixels and the averages.  Besides the result it gives
    the mask and the bytes of the binary image. *)
Definition analyzeImage (thresholdMethod : ThresholdMethod) (threshold : float)
    (selectedIndices : SelectedIndices) (img : ImageData)
    : outcome (AnalysisResult * list bool * list Z) :=
  let totalPixels := width img * height img in
  let currentThreshold := currentThreshold thresholdMethod threshold img in
  let '(vegetationIndices, wholeIndices) := initIndices selectedIndices in
  s <- forEachM (pixelStep currentThreshold selectedIndices) (pixels (data img))
         {| pass_vegetationPixels := 0;
            pass_vegetationMask := [];
            pass_binaryData := [];
            pass_vegetationIndices := vegetationIndices;
            pass_wholeIndices := wholeIndices |} ;;
  let vegetationPixels := pass_vegetationPixels s in
  let '(vegetationIndices, wholeIndices) :=
    averages totalPixels vegetationPixels
      (pass_vegetationIndices s, pass_wholeIndices s) in
  Ok ({| vegetationCoverage := (Z2F vegetationPixels / Z2F totalPixels * 100)%float;
         vegetationPixels := vegetationPixels;
         totalPixels := totalPixels;
         indices_vegetation := vegetationIndices;
         indices_whole := wholeIndices |},
      pass_vegetationMask s, pass_binaryData s).

(** *** Rendering numbers *)

(** The decimal digits of a natural number; ["0"] for zero. *)
Definition digitsOf (n : Z) : string :=
  NilZero.string_of_uint (N.to_uint (Z.to_N n)).

(** [String(n)] for an integer-valued number, as [join] renders a count. *)
Definition intToString (n : Z) : string :=
  NilZero.string_of_int (Z.to_int n).

Fixpoint zeros (k : nat) : string :=
  match k with
  | O => ""
  | S k' => String "0" (zeros k')
  end.

(** The integer [n] for which [n / 10^f] is closest to [m * 2^e]; of two
    such integers the larger one. *)
Definition roundScaled (m : positive) (e : Z) (f : nat) : Z :=
  let num := Zpos m * 10 ^ Z.of_nat f in
  match e with
  | Zneg p => (2 * num + 2 ^ Zpos p) / (2 * 2 ^ Zpos p)
  | _ => num * 2 ^ e
  end.

(** The digits of [n] with a decimal point before the last [f] of them,
    padded with zeros on the left up to [f + 1] digits. *)
Definition fixedDigits (n : Z) (f : nat) : string :=
  let m := digitsOf n in
  match f with
  | O => m
  | S _ =>
      let k := String.length m in
      let m := if (k <=? f)%nat then zeros (f + 1 - k) ++ m else m in
      let k := String.length m in
      substring 0 (k - f) m ++ "." ++ substring (k - f) f m
  end.

(** [x.toFixed(f)] (Number.prototype.toFixed), for [0 <= f <= 100]. *)
Definition toFixed (x : float) (f : nat) : string :=
  match Prim2SF x with
  | S754_nan => "NaN"
  | S754_infinity s => if s then "-Infinity" else "Infinity"
  | S754_zero _ => fixedDigits 0 f
  | S754_finite s m e =>
      (if s then "-" else "") ++
      (if (1e21 <=? abs x)%float then Number_toString (abs x)
       else fixedDigits (roundScaled m e f) f)
  end.

(** [xs.join(sep)] *)
Definition join (sep : string) (xs : list string) : string :=
  String.concat sep xs.

(** *** CSV export ([downloadCSV]) *)

(** A property read followed by [.toFixed(4)], which throws on
    [undefined]. *)
Definition indexCell (o : JsObject float) (key : string) : outcome string :=
  match get o key with
  | Some v => Ok (toFixed v 4)
  | None => Throw (TypeError key)
  end.

Definition selectedKeys (selectedIndices : SelectedIndices) : list string :=
  map fst (filter (fun entry : string * bool => snd entry) (entries selectedIndices)).

Definition csvHeaders (st : State) : outcome (list string) :=
  let selectedKeys := selectedKeys (state_selectedIndices st) in
  vegetationNames <-
    mapM (fun key => a <- algorithm key ;; Ok (name a ++ " (Vegetation)")) selectedKeys ;;
  wholeNames <-
    mapM (fun key => a <- algorithm key ;; Ok (name a ++ " (Whole)")) selectedKeys ;;
  Ok ([ "Filename"; "Total Pixels"; "Vegetation Pixels";
        "Vegetation Coverage (%)"; "Threshold Method"; "Threshold Value" ]
      ++ vegetationNames ++ wholeNames)%list.

Definition csvRow (st : State) (r : BatchRecord) : outcome (list string) :=
  let selectedKeys := selectedKeys (state_selectedIndices st) in
  vegetationCells <- mapM (indexCell (indices_vegetation (result r))) selectedKeys ;;
  wholeCells <- mapM (indexCell (indices_whole (result r))) selectedKeys ;;
  Ok ([ filename r;
        intToString (totalPixels (result r));
        intToString (vegetationPixels (result r));
        toFixed (vegetationCoverage (result r)) 2;
        ThresholdMethod_string (state_thresholdMethod st);
        match state_thresholdMethod st with
        | otsu => "auto"
        | exg => toFixed (state_threshold st) 3
        end ]
      ++ vegetationCells ++ wholeCells)%list.

(** The text handed to the [Blob]; the download itself and its dated file
    name are left to the browser. *)
Definition csvContent (st : State) (results : list BatchRecord) : outcome string :=
  headers <- csvHeaders st ;;
  rows <- mapM (csvRow st) results ;;
  Ok (join (String "010" "") (join "," headers :: map (join ",") rows)).

(** *** The handlers ([processImage], [processBatchImages])

    Reading a file into an image and drawing an image to read its pixels
    back belong to the browser; either may fail. *)

Variable File : Type.
Variable file_name : File -> string.
Variable HTMLImageElement : Type.
Variable loadImage : File -> outcome HTMLImageElement.
Variable getImageData : HTMLImageElement -> outcome ImageData.

(** [None] is the [null] returned when a canvas or its context is
    missing. *)
Definition processImage (st : State) (img : HTMLImageElement) (forBatch : bool)
    : list effect * outcome (option AnalysisResult) :=
  if negb (state_canvasReady st) then ([], Ok None)
  else
    match getImageData img with
    | Throw e => ([], Throw e)
    | Ok imageData =>
        match analyzeImage (state_thresholdMethod st) (state_threshold st)
                (state_selectedIndices st) imageData with
        | Throw e => ([], Throw e)
        | Ok (result, _, binaryData) =>
            (if forBatch then []
             else [PutImageData binaryData; SetProcessedImage binaryData;
                   SetAnalysisResult result],
             Ok (Some result))
        end
    end.

(** [for (const file of batchFiles)], with the records pushed so far. *)
Fixpoint batchLoop (st : State) (files : list File) (results : list BatchRecord)
    : list effect * outcome (list BatchRecord) :=
  match files with
  | [] => ([], Ok results)
  | file :: rest =>
      match loadImage file with
      | Throw e => ([LoadImage (file_name file)], Throw e)
      | Ok img =>
          let '(fx, r) := processImage st img true in
          match r with
          | Throw e => ((LoadImage (file_name file) :: fx)%list, Throw e)
          | Ok None =>
              let '(fx', out) := batchLoop st rest results in
              ((LoadImage (file_name file) :: fx ++ fx')%list, out)
          | Ok (Some result) =>
              let '(fx', out) :=
                batchLoop st rest
                  (results ++ [{| filename := file_name file; result := result |}])%list in
              ((LoadImage (file_name file) :: fx ++ fx')%list, out)
          end
      end
  end.

Definition processBatchImages (st : State) (batchFiles : list File) : list effect :=
  let '(fx, r) := batchLoop st batchFiles [] in
  ([SetIsProcessing true] ++ fx ++
   match results <- r ;; csvContent st results with
   | Ok csv => [Download csv]
   | Throw e => [ConsoleError e; Alert (state_language st) errors_batch]
   end ++
   [SetIsProcessing false])%list.

(** *** Vocabulary of the statements *)

(** The three channels of a pixel are bytes. *)
Definition pixel_bytes (p : Pixel) : Prop :=
  let '(r, g, b) := p in byte_range r /\ byte_range g /\ byte_range b.

(** The first loop of [calculateOtsuThreshold] from any histogram. *)
Definition fillHistogram (h : list Z) (ps : list Pixel) : list Z :=
  fold_left (fun h p => incrAt h (otsuBin p)) ps h.

(** The pixels that fall into slot [j]. *)
Definition inSlot (j : Z) (p : Pixel) : bool := otsuBin p =? j.

(** Every selected key names an entry of the registry. *)
Definition resolves (selectedIndices : SelectedIndices) : Prop :=
  forall k, In (k, true) selectedIndices -> get ALGORITHMS k <> None.

(** The Excess Green of a pixel in the words of the specification: twice
    the normalised green minus the normalised red and blue, the normalised
    triple being (R, G, B) / (R + G + B), or (0, 0, 0) for a black pixel. *)
Definition specExG (p : Pixel) : float :=
  let '(R, G, B) := p in
  let total := Z2F (R + G + B) in
  if R + G + B =? 0 then 0%float
  else (2 * (Z2F G / total) - Z2F R / total - Z2F B / total)%float.

(** The layout in the words of the specification: every cell after the
    first is preceded by the delimiter, every row after the header by a
    line feed. *)
Fixpoint prefixed (sep : string) (xs : list string) : string :=
  match xs with
  | [] => ""
  | x :: xs' => sep ++ x ++ prefixed sep xs'
  end.

(** The line feed that separates the rows. *)
Definition newline : string := String "010" "".

(** The display name of an index, as the registry gives it. *)
Definition displayName (key : string) : string :=
  match get ALGORITHMS key with
  | Some a => name a
  | None => ""
  end.

(** The header: the six fixed columns, then the vegetation block and the
    whole-image block, each in the order of the selected keys. *)
Definition specHeader (selectedKeys : list string) : string :=
  "Filename,Total Pixels,Vegetation Pixels,Vegetation Coverage (%),Threshold Method,Threshold Value"
  ++ prefixed "," (map (fun key => displayName key ++ " (Vegetation)") selectedKeys)
  ++ prefixed "," (map (fun key => displayName key ++ " (Whole)") selectedKeys).

(** The threshold cell: [auto] under Otsu, else the value to 3 decimals. *)
Definition specThresholdValue (st : State) : string :=
  match state_thresholdMethod st with
  | otsu => "auto"
  | exg => toFixed (state_threshold st) 3
  end.

(** A data row: the coverage to 2 decimals, the index values to 4. *)
Definition specRow (st : State) (selectedKeys : list string) (r : BatchRecord)
    : string :=
  filename r
  ++ "," ++ intToString (totalPixels (result r))
  ++ "," ++ intToString (vegetationPixels (result r))
  ++ "," ++ toFixed (vegetationCoverage (result r)) 2
  ++ "," ++ ThresholdMethod_string (state_thresholdMethod st)
  ++ "," ++ specThresholdValue st
  ++ prefixed ","
       (map (fun key => toFixed (getNum (indices_vegetation (result r)) key) 4)
            selectedKeys)
  ++ prefixed ","
       (map (fun key => toFixed (getNum (indices_whole (result r)) key) 4)
            selectedKeys).

(** The document: the header, then one row per record in batch order. *)
Definition specCsv (st : State) (results : list BatchRecord) : string :=
  let selectedKeys := selectedKeys (state_selectedIndices st) in
  specHeader selectedKeys ++ prefixed newline (map (specRow st selectedKeys) results).

(** The keys the caller has chosen, in the caller's order: those entries of
    the selection whose flag is true, read from first to last. *)
Fixpoint chosenKeys (selection : list (string * bool)) : list string :=
  match selection with
  | [] => []
  | (key, true) :: selection' => key :: chosenKeys selection'
  | (_, false) :: selection' => chosenKeys selection'
  end.

(** The document for the chosen keys: the header, then one row per record
    in batch order. *)
Definition specDocument (st : State) (results : list BatchRecord) : string :=
  specHeader (chosenKeys (state_selectedIndices st))
  ++ prefixed newline
       (map (specRow st (chosenKeys (state_selectedIndices st))) results).

(** A number that is neither zero, negative, infinite nor NaN. *)
Definition positive_finite (x : float) : Prop :=
  (0 <? x)%float = true /\ (x <? infinity)%float = true.

(** The file cannot be turned into a record: reading it is rejected, or
    its analysis throws. *)
Definition fileFails (st : State) (file : File) (e : exn) : Prop :=
  loadImage file = Throw e \/
  exists img, loadImage file = Ok img /\ snd (processImage st img true) = Throw e.

(** The file does not stop the batch: reading it succeeds and its analysis
    does not throw (it gives a record, or null). *)
Definition filePasses (st : State) (file : File) : Prop :=
  forall e, ~ fileFails st file e.

(** One call of [loadImage] per file, in order. *)
Definition loadCalls (files : list File) : list effect :=
  map (fun file => LoadImage (file_name file)) files.

(** *** A sample host and sample inputs

    Stand-ins for the two host functions, used to run the model on concrete
    inputs: the square for [Math.pow] (exact where the engine raises to the
    power 2, and [+0] at base [+0]) and a fixed text for huge numbers. *)

Definition Math_pow_sample (x y : float) : float := (x * x)%float.

Definition Number_toString_sample (x : float) : string := "1e+21".

(** A two-pixel image, a leaf-green pixel and a black one; an image with no
    pixel; a one-pixel image of pure green. *)
Definition sampleImage : ImageData :=
  {| width := 2; height := 1; data := [10; 200; 30; 255; 0; 0; 0; 255] |}.

Definition emptyImage : ImageData :=
  {| width := 0; height := 0; data := [] |}.

Definition greenBuffer : list Z := [0; 255; 0; 255].

Definition sampleSelected : SelectedIndices :=
  [("INT", true); ("ExG", true); ("MGRVI", true); ("VEG", false)].

Definition sampleState : State :=
  {| state_threshold := 0.2%float;
     state_thresholdMethod := exg;
     state_selectedIndices := sampleSelected;
     state_language := en;
     state_canvasReady := true |}.

(** A browser in which a file is a name with the outcome of reading it, and
    an image is its pixel data. *)
Definition SampleFile : Type := (string * outcome ImageData)%type.

Definition sampleBatch : list SampleFile :=
  [ ("a.png", Ok sampleImage);
    ("b.png", Throw (Rejected "b.png"));
    ("c.png", Ok sampleImage) ].

Definition sampleRecord : BatchRecord :=
  {| filename := "a.png";
     result :=
       {| vegetationCoverage := 50%float;
          vegetationPixels := 1;
          totalPixels := 2;
          indices_vegetation :=
            [("INT", 0.33333333333333331%float); ("ExG", 1.5%float);
             ("MGRVI", 0.99501246882793004%float)];
          indices_whole :=
            [("INT", 0.16666666666666666%float); ("ExG", 0.75%float);
             ("MGRVI", nan)] |} |}.

(** *** Further vocabulary *)

(** The four bytes written to the binary image for one pixel: opaque white
    for vegetation, opaque black otherwise. *)
Definition binaryPixel (isVeg : bool) : list Z :=
  if isVeg then [255; 255; 255; 255] else [0; 0; 0; 255].

(** The buffer with every alpha byte replaced by [alpha]. *)
Fixpoint withAlpha (alpha : Z) (d : list Z) : list Z :=
  match d with
  | r :: g :: b :: _ :: rest => r :: g :: b :: alpha :: withAlpha alpha rest
  | _ => d
  end.

(** Slot [t] separates two pixels of the list: one falls at or below it,
    one above it. *)
Definition separates (t : Z) (ps : list Pixel) : Prop :=
  exists p q, In p ps /\ In q ps /\ otsuBin p <= t < otsuBin q.

(** Slot [t] of a histogram has a populated slot at or below it and one
    above it. *)
Definition splits (h : list Z) (t : Z) : Prop :=
  exists i j, 0 <= i <= t /\ t < j /\ 0 < slot h i /\ 0 < slot h j.

(** The record that the batch pushes for a file whose pixel data is [d];
    none when the analysis throws. *)
Definition recordOf (st : State) (fileName : string) (d : ImageData)
    : list BatchRecord :=
  match analyzeImage (state_thresholdMethod st) (state_threshold st)
          (state_selectedIndices st) d with
  | Ok (r, _, _) => [{| filename := fileName; result := r |}]
  | Throw _ => []
  end.

(** The file can be read into an image whose pixel data is [d]. *)
Definition readable (file : File) (d : ImageData) : Prop :=
  exists img, loadImage file = Ok img /\ getImageData img = Ok d.

(** The records of a batch of files with their pixel data, in order. *)
Definition recordsOf (st : State) (files : list File) (datas : list ImageData)
    : list BatchRecord :=
  flat_map (fun fd : File * ImageData => recordOf st (file_name (fst fd)) (snd fd))
           (combine files datas).

(** *** The selection of indices ([useState], [IndicesSelector]) *)

(** The initial selection,
    [Object.keys(ALGORITHMS).reduce((acc, key) => { acc[key] = true; return acc }, {})]. *)
Definition initialSelectedIndices : SelectedIndices :=
  fold_left (fun acc key => assign acc key true) (keys ALGORITHMS) [].

(** The change of the checkbox of [key]:
    [onSelect({...selectedIndices, [key]: e.target.checked})]. *)
Definition onSelectChange (selectedIndices : SelectedIndices) (key : string)
    (checked : bool) : SelectedIndices :=
  assign selectedIndices key checked.

(** The selections the page can be in: there is one checkbox per entry of
    the registry. *)
Inductive reachableSelection : SelectedIndices -> Prop :=
| reach_initial : reachableSelection initialSelectedIndices
| reach_change (selectedIndices : SelectedIndices) (key : string) (checked : bool) :
    reachableSelection selectedIndices ->
    In key (keys ALGORITHMS) ->
    reachableSelection (onSelectChange selectedIndices key checked).

(** *** The upload of a single image ([handleImageUpload]) *)

Variable img_src : HTMLImageElement -> string.

(** [files] is [event.target.files]; only its first file is used. *)
Definition handleImageUpload (st : State) (files : list File)
    : list uploadEffect :=
  match files with
  | [] => []
  | file :: _ =>
      (Page (SetIsProcessing true) ::
       Page (LoadImage (file_name file)) ::
       match loadImage file with
       | Throw e =>
           [Page (ConsoleError e);
            Page (Alert (state_language st) errors_processing)]
       | Ok img =>
           SetOriginalImage (img_src img) ::
           let '(fx, r) := processImage st img false in
           map Page fx ++
           match r with
           | Throw e =>
               [Page (ConsoleError e);
                Page (Alert (state_language st) errors_processing)]
           | Ok _ => []
           end
       end ++
       [Page (SetIsProcessing false)])%list
  end.

(** More sample inputs: the sample image with its two pixels swapped, the
    sample state without a canvas, and the source shown for a sample
    image. *)
Definition swappedBuffer : list Z := [0; 0; 0; 255; 10; 200; 30; 255].

Definition sampleStateNoCanvas : State :=
  {| state_threshold := 0.2%float;
     state_thresholdMethod := exg;
     state_selectedIndices := sampleSelected;
     state_language := en;
     state_canvasReady := false |}.

Definition sample_src (img : ImageData) : string := "data:image/png;base64".

(** *** The size of the canvases *)

(** [img.width] and [img.height], which both canvases take before the image
    is drawn. *)
Variable img_width : HTMLImageElement -> Z.
Variable img_height : HTMLImageElement -> Z.


(** A canvas for the sample browser, in which an image is its pixel data. *)
Definition sampleGetImageData (d : ImageData) : outcome ImageData :=
  if (width d =? 0) || (height d =? 0)
  then Throw (DOMException "IndexSizeError")
  else Ok d.

(** * Properties *)

(** ** Objects *)

Lemma get_assign_eq {A : Type} (o : JsObject A) (k : string) (v : A) :
  get (assign o k v) k = Some v.
Proof.
  induction o as [|[k' v'] o IH]; simpl.
  - now rewrite String.eqb_refl.
  - destruct (String.eqb k' k) eqn:E; simpl; rewrite E; auto.
Qed.

Lemma get_assign_ne {A : Type} (o : JsObject A) (k k' : string) (v : A) :
  k <> k' -> get (assign o k v) k' = get o k'.
Proof.
  intros Hne. induction o as [|[k0 v0] o IH]; simpl.
  - destruct (String.eqb k k') eqn:E; auto.
    apply String.eqb_eq in E. contradiction.
  - destruct (String.eqb k0 k) eqn:E; simpl.
    + apply String.eqb_eq in E. subst k0.
      destruct (String.eqb k k') eqn:E'; auto.
      apply String.eqb_eq in E'. contradiction.
    + now rewrite IH.
Qed.

Lemma get_In_keys {A : Type} (o : JsObject A) (k : string) (v : A) :
  get o k = Some v -> In k (keys o).
Proof.
  induction o as [|[k' v'] o IH]; simpl; [discriminate|].
  destruct (String.eqb k' k) eqn:E.
  - apply String.eqb_eq in E. auto.
  - intros H. right. now apply IH.
Qed.

Lemma keys_assign_present {A : Type} (o : JsObject A) (k : string) (v : A) :
  In k (keys o) -> keys (assign o k v) = keys o.
Proof.
  induction o as [|[k' v'] o IH]; simpl; [intros []|].
  intros [->|Hin].
  - now rewrite String.eqb_refl.
  - destruct (String.eqb k' k); simpl; [reflexivity|].
    f_equal. now apply IH.
Qed.

Lemma get_entry {A : Type} (o : JsObject A) (k : string) (v : A) :
  NoDup (keys o) -> In (k, v) o -> get o k = Some v.
Proof.
  induction o as [|[k' v'] o IH]; simpl; [intros _ []|].
  intros Hnd [Heq|Hin].
  - inversion Heq; subst. now rewrite String.eqb_refl.
  - inversion Hnd as [|? ? Hnotin Hnd']; subst.
    destruct (String.eqb k' k) eqn:E.
    + apply String.eqb_eq in E. subst k'.
      exfalso. apply Hnotin. unfold keys.
      change k with (fst (k, v)). now apply in_map.
    + now apply IH.
Qed.

Lemma getNum_Some (o : JsObject float) (k : string) (v : float) :
  get o k = Some v -> getNum o k = v.
Proof. unfold getNum. now intros ->. Qed.

(** ** NaN is absorbing *)

Lemma Prim2SF_nan_inv (x : float) : Prim2SF x = S754_nan -> x = nan.
Proof.
  intros H. rewrite <- (SF2Prim_Prim2SF x). now rewrite H.
Qed.

Lemma add_nan_l (x : float) : (nan + x)%float = nan.
Proof.
  apply Prim2SF_nan_inv. rewrite add_spec. reflexivity.
Qed.

Lemma add_nan_r (x : float) : (x + nan)%float = nan.
Proof.
  apply Prim2SF_nan_inv. rewrite add_spec.
  change (Prim2SF nan) with S754_nan.
  now destruct (Prim2SF x).
Qed.

Lemma div_nan_l (x : float) : (nan / x)%float = nan.
Proof.
  apply Prim2SF_nan_inv. rewrite div_spec. reflexivity.
Qed.

Lemma fold_add_nan (l : list float) : fold_left PrimFloat.add l nan = nan.
Proof.
  induction l as [|x l IH]; simpl; [reflexivity|].
  now rewrite add_nan_l.
Qed.

Lemma sum_with_nan (l : list float) (acc : float) :
  In nan l -> fold_left PrimFloat.add l acc = nan.
Proof.
  revert acc. induction l as [|x l IH]; simpl; [intros _ []|].
  intros acc [->|Hin].
  - rewrite add_nan_r. apply fold_add_nan.
  - now apply IH.
Qed.

(** ** Pixels of a byte buffer *)

Lemma pixels_quad (r g b a : Z) (rest : list Z) :
  pixels (r :: g :: b :: a :: rest) = (r, g, b) :: pixels rest.
Proof. reflexivity. Qed.

(** Induction over a buffer, four bytes at a time. *)
Lemma buffer_ind (P : list Z -> Prop) :
  P [] ->
  (forall r, P [r]) ->
  (forall r g, P [r; g]) ->
  (forall r g b, P [r; g; b]) ->
  (forall r g b a rest, P rest -> P (r :: g :: b :: a :: rest)) ->
  forall d, P d.
Proof.
  intros H0 H1 H2 H3 H4.
  fix IH 1.
  intros [|r [|g [|b [|a rest]]]];
    [exact H0|apply H1|apply H2|apply H3|apply H4; apply IH].
Qed.

Lemma pixels_bytes (d : list Z) :
  Forall byte_range d -> Forall pixel_bytes (pixels d).
Proof.
  induction d as [|r|r g|r g b|r g b a rest IH] using buffer_ind; intros H;
    try (simpl; constructor; fail).
  - inversion H as [|? ? Hr H1]; subst. inversion H1 as [|? ? Hg H2]; subst.
    inversion H2 as [|? ? Hb H3]; subst. simpl. constructor; [|constructor].
    unfold pixel_bytes. auto.
  - inversion H as [|? ? Hr H1]; subst. inversion H1 as [|? ? Hg H2]; subst.
    inversion H2 as [|? ? Hb H3]; subst. inversion H3; subst.
    rewrite pixels_quad. constructor; [unfold pixel_bytes; auto|]. now apply IH.
Qed.

Lemma pixels_length (d : list Z) (n : Z) :
  Z.of_nat (List.length d) = 4 * n ->
  Z.of_nat (List.length (pixels d)) = n.
Proof.
  revert n.
  induction d as [|r|r g|r g b|r g b a rest IH] using buffer_ind; intros n H;
    try (cbn [List.length pixels] in *; lia).
  rewrite pixels_quad. cbn [List.length] in *.
  specialize (IH (n - 1)). lia.
Qed.

(** ** The histogram *)

Lemma otsuBin_range (p : Pixel) :
  pixel_bytes p -> 0 <= otsuBin p <= 255.
Proof.
  destruct p as [[r g] b]. unfold pixel_bytes, byte_range, otsuBin, Math_round_quarter.
  intros (Hr & Hg & Hb).
  split.
  - apply Z.div_pos; lia.
  - apply Z.lt_succ_r. apply Z.div_lt_upper_bound; lia.
Qed.

Lemma incrNat_length (h : list Z) (n : nat) :
  List.length (incrNat h n) = List.length h.
Proof.
  revert n. induction h as [|x h IH]; intros [|n]; simpl; auto.
Qed.

Lemma incrAt_length (h : list Z) (i : Z) :
  List.length (incrAt h i) = List.length h.
Proof.
  unfold incrAt. destruct (_ && _); auto using incrNat_length.
Qed.

Lemma incrNat_nth (h : list Z) (n m : nat) :
  (n < List.length h)%nat ->
  nth m (incrNat h n) 0 = nth m h 0 + (if Nat.eqb n m then 1 else 0).
Proof.
  revert n m. induction h as [|x h IH]; intros n m Hn; simpl in Hn; [lia|].
  destruct n as [|n]; destruct m as [|m]; simpl; try lia.
  apply IH. lia.
Qed.

Lemma incrAt_slot (h : list Z) (i j : Z) :
  0 <= i < Z.of_nat (List.length h) -> 0 <= j ->
  slot (incrAt h i) j = slot h j + (if i =? j then 1 else 0).
Proof.
  intros Hi Hj. unfold incrAt, slot.
  replace ((0 <=? i) && (i <? Z.of_nat (List.length h))) with true
    by (symmetry; apply andb_true_iff; split; [apply Z.leb_le|apply Z.ltb_lt]; lia).
  rewrite incrNat_nth by lia.
  destruct (Z.eqb_spec i j) as [->|Hne].
  - now rewrite Nat.eqb_refl.
  - destruct (Nat.eqb_spec (Z.to_nat i) (Z.to_nat j)) as [E|]; [|reflexivity].
    exfalso. apply Hne. lia.
Qed.

Lemma fold_add_shift (h : list Z) (acc : Z) :
  fold_left Z.add h acc = acc + fold_left Z.add h 0.
Proof.
  revert acc. induction h as [|x h IH]; intros acc; simpl; [lia|].
  rewrite (IH (acc + x)), (IH x). lia.
Qed.

Lemma incrNat_total (h : list Z) (n : nat) :
  (n < List.length h)%nat -> histTotal (incrNat h n) = histTotal h + 1.
Proof.
  unfold histTotal. revert n. induction h as [|x h IH]; intros n Hn; simpl in Hn; [lia|].
  destruct n as [|n]; simpl.
  - rewrite (fold_add_shift h (x + 1)), (fold_add_shift h x). lia.
  - rewrite (fold_add_shift _ x), (fold_add_shift h x). rewrite IH by lia. lia.
Qed.

Lemma incrAt_total (h : list Z) (i : Z) :
  0 <= i < Z.of_nat (List.length h) -> histTotal (incrAt h i) = histTotal h + 1.
Proof.
  intros Hi. unfold incrAt.
  replace ((0 <=? i) && (i <? Z.of_nat (List.length h))) with true
    by (symmetry; apply andb_true_iff; split; [apply Z.leb_le|apply Z.ltb_lt]; lia).
  apply incrNat_total. lia.
Qed.

Lemma fillHistogram_length (ps : list Pixel) (h : list Z) :
  List.length (fillHistogram h ps) = List.length h.
Proof.
  revert h. induction ps as [|p ps IH]; intros h; simpl; [reflexivity|].
  unfold fillHistogram in *. simpl. now rewrite IH, incrAt_length.
Qed.

Lemma fillHistogram_total (ps : list Pixel) (h : list Z) :
  List.length h = 256%nat -> Forall pixel_bytes ps ->
  histTotal (fillHistogram h ps) = histTotal h + Z.of_nat (List.length ps).
Proof.
  revert h. induction ps as [|p ps IH]; intros h Hlen Hb; simpl; [lia|].
  inversion Hb as [|? ? Hp Hps]; subst.
  unfold fillHistogram in *. simpl.
  rewrite IH; [|now rewrite incrAt_length|assumption].
  rewrite incrAt_total; [lia|].
  pose proof (otsuBin_range p Hp). lia.
Qed.

Lemma fillHistogram_slot (ps : list Pixel) (h : list Z) (j : Z) :
  List.length h = 256%nat -> Forall pixel_bytes ps -> 0 <= j ->
  slot (fillHistogram h ps) j =
  slot h j + Z.of_nat (List.length (filter (inSlot j) ps)).
Proof.
  revert h. induction ps as [|p ps IH]; intros h Hlen Hb Hj; simpl; [lia|].
  inversion Hb as [|? ? Hp Hps]; subst.
  unfold fillHistogram in *. simpl.
  rewrite IH; [|now rewrite incrAt_length|assumption|assumption].
  rewrite incrAt_slot; [|pose proof (otsuBin_range p Hp); lia|assumption].
  unfold inSlot at 2. destruct (otsuBin p =? j); simpl List.length; lia.
Qed.

Lemma slot_repeat_0 (n : nat) (j : Z) : slot (repeat 0 n) j = 0.
Proof.
  unfold slot. generalize (Z.to_nat j). induction n as [|n IH]; intros [|m]; simpl; auto.
Qed.

Lemma histTotal_repeat_0 (n : nat) : histTotal (repeat 0 n) = 0.
Proof.
  unfold histTotal. induction n as [|n IH]; simpl; auto.
Qed.

(** Every slot of the histogram counts the pixels that map to it. *)
Lemma buildHistogram_slot (ps : list Pixel) (j : Z) :
  Forall pixel_bytes ps -> 0 <= j ->
  slot (buildHistogram ps) j = Z.of_nat (List.length (filter (inSlot j) ps)).
Proof.
  intros Hb Hj. change (buildHistogram ps) with (fillHistogram (repeat 0 256) ps).
  rewrite fillHistogram_slot by (auto using repeat_length).
  now rewrite slot_repeat_0.
Qed.

Lemma buildHistogram_total (ps : list Pixel) :
  Forall pixel_bytes ps ->
  histTotal (buildHistogram ps) = Z.of_nat (List.length ps).
Proof.
  intros Hb. change (buildHistogram ps) with (fillHistogram (repeat 0 256) ps).
  rewrite fillHistogram_total by (auto using repeat_length).
  now rewrite histTotal_repeat_0.
Qed.

Lemma buildHistogram_length (ps : list Pixel) :
  List.length (buildHistogram ps) = 256%nat.
Proof.
  change (buildHistogram ps) with (fillHistogram (repeat 0 256) ps).
  now rewrite fillHistogram_length, repeat_length.
Qed.

(** ** Otsu's scan *)

Lemma otsuScan_threshold_range (h : list Z) (total sum : Z) (n : nat) :
  forall (t : Z) (s : OtsuState),
    0 <= t -> t + Z.of_nat n <= 256 ->
    0 <= threshold s <= 255 ->
    0 <= threshold (otsuScan h total sum n t s) <= 255.
Proof.
  induction n as [|n IH]; intros t s Ht Hn Hs; [exact Hs|].
  cbn [otsuScan].
  destruct (wB s + slot h t =? 0).
  - apply IH; simpl; lia.
  - destruct (total - (wB s + slot h t) =? 0); [exact Hs|].
    destruct (maxVar s <? _)%float; apply IH; simpl; lia.
Qed.

Lemma otsuSlot_range (d : list Z) : 0 <= otsuSlot d <= 255.
Proof.
  unfold otsuSlot. apply otsuScan_threshold_range; simpl; lia.
Qed.

(** Every slot maps back into the interval from -1 to 1. *)
Lemma slot_to_unit_interval (t : Z) :
  0 <= t <= 255 ->
  (-1 <=? Z2F (t * 4 - 510) / 510)%float = true /\
  (Z2F (t * 4 - 510) / 510 <=? 1)%float = true.
Proof.
  intros Ht.
  assert (Hall : forallb
            (fun t => (-1 <=? Z2F (t * 4 - 510) / 510)%float &&
                      (Z2F (t * 4 - 510) / 510 <=? 1)%float)
            (map Z.of_nat (seq 0 256)) = true)
    by (vm_compute; reflexivity).
  rewrite forallb_forall in Hall.
  apply andb_true_iff. apply Hall.
  apply in_map_iff. exists (Z.to_nat t). split; [lia|].
  apply in_seq. lia.
Qed.

(** While the slots seen so far are empty the scan only moves on, and it
    stops at the slot that holds every pixel. *)
Lemma otsuScan_single_slot (h : list Z) (total sum k : Z) (n : nat) :
  forall (t : Z) (s : OtsuState),
    wB s = 0 ->
    (forall j, t <= j < k -> slot h j = 0) ->
    slot h k = total -> total <> 0 ->
    t <= k < t + Z.of_nat n ->
    threshold (otsuScan h total sum n t s) = threshold s.
Proof.
  induction n as [|n IH]; intros t s Hw Hlow Hk Htot Hrange; [lia|].
  cbn [otsuScan]. rewrite Hw.
  destruct (Z.eq_dec t k) as [->|Hne].
  - rewrite Hk. simpl.
    destruct (Z.eqb_spec total 0) as [|_]; [contradiction|].
    now rewrite Z.sub_diag.
  - rewrite Hlow by lia. simpl.
    rewrite IH; simpl; auto; try lia.
    intros j Hj. apply Hlow. lia.
Qed.

Lemma otsuScan_empty (h : list Z) (total sum : Z) (n : nat) :
  forall (t : Z) (s : OtsuState),
    wB s = 0 ->
    (forall j, slot h j = 0) ->
    threshold (otsuScan h total sum n t s) = threshold s.
Proof.
  induction n as [|n IH]; intros t s Hw Hz; [reflexivity|].
  cbn [otsuScan]. rewrite Hw, Hz. simpl. now rewrite IH.
Qed.

Lemma filter_all {A : Type} (f : A -> bool) (l : list A) :
  Forall (fun x => f x = true) l -> filter f l = l.
Proof.
  induction 1 as [|x l Hx _ IH]; simpl; [reflexivity|]. now rewrite Hx, IH.
Qed.

Lemma filter_none {A : Type} (f : A -> bool) (l : list A) :
  Forall (fun x => f x = false) l -> filter f l = [].
Proof.
  induction 1 as [|x l Hx _ IH]; simpl; [reflexivity|]. now rewrite Hx.
Qed.

Lemma uniform_otsuSlot (d : list Z) (bin : Z) :
  Forall byte_range d ->
  pixels d <> [] ->
  Forall (fun p => otsuBin p = bin) (pixels d) ->
  otsuSlot d = 0.
Proof.
  intros Hb Hne Hu.
  pose proof (pixels_bytes d Hb) as Hpb.
  assert (Hbin : 0 <= bin <= 255).
  { destruct (pixels d) as [|p ps]; [contradiction|].
    inversion Hu; subst. inversion Hpb; subst. now apply otsuBin_range. }
  assert (Hlen : 0 < Z.of_nat (List.length (pixels d))).
  { destruct (pixels d); [contradiction|simpl; lia]. }
  unfold otsuSlot.
  rewrite (otsuScan_single_slot _ _ _ bin); simpl; auto; try lia.
  - intros j Hj. rewrite buildHistogram_slot by (auto; lia).
    rewrite filter_none; [reflexivity|].
    eapply Forall_impl; [|exact Hu]. intros p Hp. unfold inSlot.
    rewrite Hp. apply Z.eqb_neq. lia.
  - rewrite buildHistogram_slot, buildHistogram_total by (auto; lia).
    rewrite filter_all; [reflexivity|].
    eapply Forall_impl; [|exact Hu]. intros p Hp. unfold inSlot.
    rewrite Hp. apply Z.eqb_refl.
  - rewrite buildHistogram_total by auto. lia.
Qed.

(** C3 (as amended).  The Otsu threshold is defined for every buffer and
    every host: it is the image [(4 t - 510) / 510] of one of the 256 slots
    [t].  On the empty buffer no slot is ever chosen, the initial slot 0
    stands, and the threshold returned is -1. *)
Theorem otsu_total_and_empty_fallback :
  (forall d : list Z,
      exists t : Z, 0 <= t <= 255 /\
        calculateOtsuThreshold d = (Z2F (4 * t - 510) / 510)%float) /\
  otsuSlot [] = 0 /\
  calculateOtsuThreshold [] = (-1)%float.
Proof.
  split; [|split].
  - intros d. exists (otsuSlot d). split; [apply otsuSlot_range|].
    unfold calculateOtsuThreshold. now rewrite (Z.mul_comm 4).
  - vm_compute. reflexivity.
  - vm_compute. reflexivity.
Qed.

(** C4 (as amended).  On a non-empty uniform image, whatever slot its
    pixels map to, the scan breaks at that slot before any candidate is
    scored: slot 0 stands and the threshold returned is -1. *)
Theorem otsu_uniform_image (d : list Z) (bin : Z) :
  Forall byte_range d ->
  pixels d <> [] ->
  Forall (fun p => otsuBin p = bin) (pixels d) ->
  otsuSlot d = 0 /\ calculateOtsuThreshold d = (-1)%float.
Proof.
  intros Hb Hne Hu.
  pose proof (uniform_otsuSlot d bin Hb Hne Hu) as H0.
  split; [exact H0|].
  unfold calculateOtsuThreshold. rewrite H0. vm_compute. reflexivity.
Qed.

(** C10.  A pixel whose channels are bytes maps to one of the 256 slots;
    so, on a buffer of bytes, the histogram keeps its 256 slots and counts
    every pixel, and the threshold returned lies between -1 and 1. *)
Theorem otsu_bins_and_threshold_in_range (r g b : Z) (d : list Z) :
  byte_range r -> byte_range g -> byte_range b ->
  Forall byte_range d ->
  0 <= otsuBin (r, g, b) <= 255 /\
  Forall (fun p => 0 <= otsuBin p <= 255) (pixels d) /\
  List.length (buildHistogram (pixels d)) = 256%nat /\
  histTotal (buildHistogram (pixels d)) = Z.of_nat (List.length (pixels d)) /\
  (-1 <=? calculateOtsuThreshold d)%float = true /\
  (calculateOtsuThreshold d <=? 1)%float = true.
Proof.
  intros Hr Hg Hb Hd. pose proof (pixels_bytes d Hd) as Hpb.
  split; [apply otsuBin_range; unfold pixel_bytes; auto|].
  split; [|split; [|split]].
  - eapply Forall_impl; [|exact Hpb]. apply otsuBin_range.
  - apply buildHistogram_length.
  - now apply buildHistogram_total.
  - apply slot_to_unit_interval, otsuSlot_range.
Qed.

Lemma In_keys_assign {A : Type} (o : JsObject A) (k x : string) (v : A) :
  In x (keys (assign o k v)) -> x = k \/ In x (keys o).
Proof.
  induction o as [|[k' v'] o IH]; simpl.
  - intros [->|[]]. now left.
  - destruct (String.eqb k' k); simpl; [intros H; now right|].
    intros [->|Hin]; [right; now left|].
    destruct (IH Hin) as [H|H]; [now left|right; now right].
Qed.

Lemma NoDup_keys_assign {A : Type} (o : JsObject A) (k : string) (v : A) :
  NoDup (keys o) -> NoDup (keys (assign o k v)).
Proof.
  induction o as [|[k' v'] o IH]; simpl; intros Hnd.
  - constructor; [intros []|constructor].
  - inversion Hnd as [|? ? Hnotin Hnd']; subst.
    destruct (String.eqb k' k) eqn:E; simpl; [exact Hnd|].
    constructor; [|now apply IH].
    intros Hin. apply In_keys_assign in Hin.
    destruct Hin as [->|Hin]; [|contradiction].
    now rewrite String.eqb_refl in E.
Qed.

(** ** The pass over the pixels *)

Lemma entry_key_fresh {B : Type} (es : list (string * B)) (k : string) (b : B) :
  ~ In k (map fst es) -> ~ In (k, b) es.
Proof.
  intros Hn Hin. apply Hn. change k with (fst (k, b)). now apply in_map.
Qed.

Lemma accumulate_entries (p : Pixel) (isVeg : bool) :
  forall (es : list (string * bool)) (veg whole : JsObject float),
    NoDup (map fst es) ->
    (forall k, In (k, true) es -> get ALGORITHMS k <> None) ->
    exists veg' whole',
      forEachM (accumulateStep p isVeg) es (veg, whole) = Ok (veg', whole') /\
      (forall k a, In (k, true) es -> get ALGORITHMS k = Some a ->
         get whole' k = Some (getNum whole k + indexValue a p)%float /\
         get veg' k =
           if isVeg then Some (getNum veg k + indexValue a p)%float else get veg k) /\
      (forall k, ~ In (k, true) es ->
         get whole' k = get whole k /\ get veg' k = get veg k) /\
      (NoDup (keys whole) -> NoDup (keys whole')).
Proof.
  induction es as [|[k0 b0] es IH]; intros veg whole Hnd Hres.
  - exists veg, whole. simpl. split; [reflexivity|].
    split; [intros k a []|]. split; auto.
  - inversion Hnd as [|? ? Hnotin Hnd']; subst.
    destruct b0.
    + destruct (get ALGORITHMS k0) as [a0|] eqn:Ea;
        [|exfalso; apply (Hres k0); [now left|assumption]].
      cbn [forEachM accumulateStep]. unfold algorithm. rewrite Ea. cbn [bind].
      remember (assign whole k0 (getNum whole k0 + indexValue a0 p)%float) as whole1 eqn:Ew.
      remember (if isVeg
                then assign veg k0 (getNum veg k0 + indexValue a0 p)%float
                else veg) as veg1 eqn:Ev.
      destruct (IH veg1 whole1 Hnd') as (veg' & whole' & Hrun & Hsel & Hother & Hdup).
      { intros k Hk. apply Hres. now right. }
      exists veg', whole'. split; [exact Hrun|]. split; [|split].
      * intros k a [Heq|Hin] Ha.
        -- inversion Heq; subst k. rewrite Ea in Ha. inversion Ha; subst a0.
           destruct (Hother k0 (entry_key_fresh es k0 true Hnotin)) as [Hw Hv].
           rewrite Hw, Hv, Ew, Ev. rewrite get_assign_eq. split; [reflexivity|].
           destruct isVeg; [apply get_assign_eq|reflexivity].
        -- assert (Hne : k0 <> k).
           { intros ->. now apply (entry_key_fresh es k true Hnotin). }
           destruct (Hsel k a Hin Ha) as [Hw Hv]. rewrite Hw, Hv.
           unfold getNum. rewrite Ew, Ev. rewrite get_assign_ne by assumption.
           split; [reflexivity|].
           destruct isVeg; [rewrite get_assign_ne by assumption|]; reflexivity.
      * intros k Hk.
        assert (Hne : k0 <> k) by (intros ->; apply Hk; now left).
        destruct (Hother k) as [Hw Hv]; [intros Hin; apply Hk; now right|].
        rewrite Hw, Hv, Ew, Ev. rewrite get_assign_ne by assumption.
        split; [reflexivity|].
        destruct isVeg; [rewrite get_assign_ne by assumption|]; reflexivity.
      * intros Hw. apply Hdup. rewrite Ew. now apply NoDup_keys_assign.
    + cbn [forEachM accumulateStep bind].
      destruct (IH veg whole Hnd') as (veg' & whole' & Hrun & Hsel & Hother & Hdup).
      { intros k Hk. apply Hres. now right. }
      exists veg', whole'. split; [exact Hrun|]. split; [|split].
      * intros k a [Heq|Hin] Ha; [discriminate|]. now apply Hsel.
      * intros k Hk. apply Hother. intros Hin. apply Hk. now right.
      * exact Hdup.
Qed.

Lemma pass_pixels (tau : float) (selectedIndices : SelectedIndices) :
  NoDup (keys selectedIndices) -> resolves selectedIndices ->
  forall (ps : list Pixel) (s : PassState),
  exists s',
    forEachM (pixelStep tau selectedIndices) ps s = Ok s' /\
    pass_vegetationPixels s' =
      pass_vegetationPixels s + Z.of_nat (List.length (filter (isVegetation tau) ps)) /\
    pass_vegetationMask s' =
      (pass_vegetationMask s ++ map (isVegetation tau) ps)%list /\
    (forall k a w0 v0,
        In (k, true) selectedIndices -> get ALGORITHMS k = Some a ->
        get (pass_wholeIndices s) k = Some w0 ->
        get (pass_vegetationIndices s) k = Some v0 ->
        get (pass_wholeIndices s') k =
          Some (fold_left PrimFloat.add (map (indexValue a) ps) w0) /\
        get (pass_vegetationIndices s') k =
          Some (fold_left PrimFloat.add
                  (map (indexValue a) (filter (isVegetation tau) ps)) v0)) /\
    (NoDup (keys (pass_wholeIndices s)) -> NoDup (keys (pass_wholeIndices s'))).
Proof.
  intros Hnd Hres. induction ps as [|p ps IH]; intros s.
  - exists s. simpl. split; [reflexivity|]. split; [lia|].
    split; [now rewrite app_nil_r|]. split; auto.
  - cbn [forEachM]. unfold pixelStep at 1. unfold accumulate, entries.
    destruct (accumulate_entries p (isVegetation tau p) selectedIndices
                (pass_vegetationIndices s) (pass_wholeIndices s) Hnd Hres)
      as (veg1 & whole1 & Hrun & Hsel & _ & Hdup1).
    rewrite Hrun. cbn [bind fst snd].
    match goal with |- context [forEachM _ ps ?s1] => destruct (IH s1)
      as (s' & Hrun' & Hcount & Hmask & Hidx & Hdup) end.
    cbn [pass_vegetationPixels pass_vegetationMask pass_wholeIndices
         pass_vegetationIndices] in *.
    exists s'. split; [exact Hrun'|]. split; [|split; [|split]].
    + rewrite Hcount. cbn [filter].
      destruct (isVegetation tau p); cbn [List.length]; lia.
    + rewrite Hmask. rewrite <- app_assoc. reflexivity.
    + intros k a w0 v0 Hin Ha Hw0 Hv0.
      destruct (Hsel k a Hin Ha) as [Hw1 Hv1].
      rewrite (getNum_Some _ _ _ Hw0) in Hw1.
      cbn [map filter fold_left].
      destruct (isVegetation tau p).
      * rewrite (getNum_Some _ _ _ Hv0) in Hv1.
        apply (Hidx k a _ _ Hin Ha Hw1 Hv1).
      * rewrite Hv0 in Hv1.
        apply (Hidx k a _ _ Hin Ha Hw1 Hv1).
    + intros H. apply Hdup, Hdup1, H.
Qed.

(** ** The initial records and the averages *)

Lemma initStep_keeps (selectedIndices : SelectedIndices) (k key : string)
    (acc : JsObject float * JsObject float) :
  get (fst acc) k = Some 0%float -> get (snd acc) k = Some 0%float ->
  get (fst (initStep selectedIndices acc key)) k = Some 0%float /\
  get (snd (initStep selectedIndices acc key)) k = Some 0%float.
Proof.
  destruct acc as [veg whole]. unfold initStep. simpl. intros Hv Hw.
  destruct (get selectedIndices key) as [[|]|]; simpl; auto.
  destruct (string_dec key k) as [->|Hne].
  - now rewrite !get_assign_eq.
  - now rewrite !get_assign_ne by assumption.
Qed.

Lemma init_fold_keeps (selectedIndices : SelectedIndices) (k : string) :
  forall (ks : list string) (acc : JsObject float * JsObject float),
    get (fst acc) k = Some 0%float -> get (snd acc) k = Some 0%float ->
    get (fst (fold_left (initStep selectedIndices) ks acc)) k = Some 0%float /\
    get (snd (fold_left (initStep selectedIndices) ks acc)) k = Some 0%float.
Proof.
  induction ks as [|key ks IH]; intros acc Hv Hw; simpl; [auto|].
  destruct (initStep_keeps selectedIndices k key acc Hv Hw). now apply IH.
Qed.

Lemma init_fold_sets (selectedIndices : SelectedIndices) (k : string) :
  get selectedIndices k = Some true ->
  forall (ks : list string) (acc : JsObject float * JsObject float),
    In k ks ->
    get (fst (fold_left (initStep selectedIndices) ks acc)) k = Some 0%float /\
    get (snd (fold_left (initStep selectedIndices) ks acc)) k = Some 0%float.
Proof.
  intros Hsel. induction ks as [|key ks IH]; intros acc Hin; simpl; [destruct Hin|].
  destruct (string_dec key k) as [->|Hne].
  - apply init_fold_keeps; destruct acc as [veg whole]; unfold initStep;
      rewrite Hsel; simpl; apply get_assign_eq.
  - destruct Hin as [Heq|Hin]; [contradiction|]. now apply IH.
Qed.

Lemma init_fold_NoDup (selectedIndices : SelectedIndices) :
  forall (ks : list string) (acc : JsObject float * JsObject float),
    NoDup (keys (snd acc)) ->
    NoDup (keys (snd (fold_left (initStep selectedIndices) ks acc))).
Proof.
  induction ks as [|key ks IH]; intros acc Hnd; simpl; [exact Hnd|].
  apply IH. destruct acc as [veg whole]. unfold initStep.
  destruct (get selectedIndices key) as [[|]|]; simpl; auto.
  now apply NoDup_keys_assign.
Qed.

Lemma initIndices_selected (selectedIndices : SelectedIndices) (k : string) :
  NoDup (keys selectedIndices) -> In (k, true) selectedIndices ->
  get (fst (initIndices selectedIndices)) k = Some 0%float /\
  get (snd (initIndices selectedIndices)) k = Some 0%float.
Proof.
  intros Hnd Hin. unfold initIndices.
  apply init_fold_sets.
  - now apply get_entry.
  - unfold keys. change k with (fst (k, true)). now apply in_map.
Qed.

Lemma initIndices_NoDup (selectedIndices : SelectedIndices) :
  NoDup (keys (snd (initIndices selectedIndices))).
Proof.
  unfold initIndices. apply init_fold_NoDup. simpl. constructor.
Qed.

Lemma average_fold (T V : Z) :
  forall (ks : list string) (veg whole : JsObject float),
    NoDup ks ->
    (forall k, In k ks ->
       get (snd (fold_left (averageStep T V) ks (veg, whole))) k =
         Some (getNum whole k / Z2F T)%float /\
       get (fst (fold_left (averageStep T V) ks (veg, whole))) k =
         Some (if 0 <? V then (getNum veg k / Z2F V)%float else 0%float)) /\
    (forall k, ~ In k ks ->
       get (snd (fold_left (averageStep T V) ks (veg, whole))) k = get whole k /\
       get (fst (fold_left (averageStep T V) ks (veg, whole))) k = get veg k).
Proof.
  induction ks as [|k0 ks IH]; intros veg whole Hnd.
  - simpl. split; [intros k []|auto].
  - inversion Hnd as [|? ? Hnotin Hnd']; subst.
    cbn [fold_left averageStep].
    match goal with |- context [fold_left _ ks (?v1, ?w1)] =>
      destruct (IH v1 w1 Hnd') as [Hsel Hother] end.
    split.
    + intros k [->|Hin].
      * destruct (Hother k Hnotin) as [Hw Hv]. rewrite Hw, Hv.
        now rewrite !get_assign_eq.
      * assert (Hne : k0 <> k) by (intros ->; contradiction).
        destruct (Hsel k Hin) as [Hw Hv]. rewrite Hw, Hv.
        unfold getNum. now rewrite !get_assign_ne by assumption.
    + intros k Hk.
      assert (Hne : k0 <> k) by (intros ->; apply Hk; now left).
      destruct (Hother k) as [Hw Hv]; [intros Hin; apply Hk; now right|].
      rewrite Hw, Hv. now rewrite !get_assign_ne by assumption.
Qed.

(** ** The analysis of one image *)

Lemma pixelExG_spec (p : Pixel) : pixelExG p = specExG p.
Proof.
  destruct p as [[r g] b]. unfold pixelExG, specExG, normalizeRGB.
  destruct (r + g + b =? 0); reflexivity.
Qed.

Lemma analyzeImage_run (thresholdMethod : ThresholdMethod) (threshold : float)
    (selectedIndices : SelectedIndices) (img : ImageData) :
  NoDup (keys selectedIndices) -> resolves selectedIndices ->
  let tau := currentThreshold thresholdMethod threshold img in
  let ps := pixels (data img) in
  let T := width img * height img in
  let V := Z.of_nat (List.length (filter (isVegetation tau) ps)) in
  exists r binaryData,
    analyzeImage thresholdMethod threshold selectedIndices img =
      Ok (r, map (isVegetation tau) ps, binaryData) /\
    totalPixels r = T /\
    vegetationPixels r = V /\
    vegetationCoverage r = (Z2F V / Z2F T * 100)%float /\
    (forall k a,
        In (k, true) selectedIndices -> get ALGORITHMS k = Some a ->
        get (indices_whole r) k =
          Some (sumF (map (indexValue a) ps) / Z2F T)%float /\
        get (indices_vegetation r) k =
          Some (if 0 <? V
                then (sumF (map (indexValue a) (filter (isVegetation tau) ps)) / Z2F V)%float
                else 0%float)).
Proof.
  intros Hnd Hres tau ps T V. unfold analyzeImage.
  fold tau. fold ps. fold T.
  pose proof (initIndices_selected selectedIndices) as Hinit.
  pose proof (initIndices_NoDup selectedIndices) as Hinit_nd.
  destruct (initIndices selectedIndices) as [veg0 whole0].
  cbn [fst snd] in Hinit, Hinit_nd.
  destruct (pass_pixels tau selectedIndices Hnd Hres ps
              {| pass_vegetationPixels := 0; pass_vegetationMask := [];
                 pass_binaryData := []; pass_vegetationIndices := veg0;
                 pass_wholeIndices := whole0 |})
    as (s & Hrun & Hcount & Hmask & Hidx & Hdup).
  cbn [pass_vegetationPixels pass_vegetationMask pass_wholeIndices
       pass_vegetationIndices] in *.
  rewrite Hrun. cbn [bind].
  rewrite Z.add_0_l in Hcount. fold V in Hcount.
  pose proof (average_fold T V (keys (pass_wholeIndices s))
                (pass_vegetationIndices s) (pass_wholeIndices s) (Hdup Hinit_nd))
    as [Havg _].
  unfold averages. cbn [snd]. rewrite Hcount.
  destruct (fold_left (averageStep T V) (keys (pass_wholeIndices s))
              (pass_vegetationIndices s, pass_wholeIndices s))
    as [vegF wholeF].
  cbn [fst snd] in Havg.
  eexists. exists (pass_binaryData s).
  split; [rewrite Hmask; reflexivity|].
  cbn [totalPixels vegetationPixels vegetationCoverage indices_whole
       indices_vegetation].
  repeat (split; [reflexivity|]).
  intros k a Hin Ha.
  destruct (Hinit k Hnd Hin) as [Hv0 Hw0].
  destruct (Hidx k a _ _ Hin Ha Hw0 Hv0) as [Hw Hv].
  destruct (Havg k (get_In_keys _ _ _ Hw)) as [HwF HvF].
  rewrite HwF, HvF.
  rewrite (getNum_Some _ _ _ Hw), (getNum_Some _ _ _ Hv).
  split; reflexivity.
Qed.


(** C2.  The mask holds, pixel by pixel, whether the Excess Green of the
    normalised pixel is at least the threshold; the Excess Green of a black
    pixel is 0; and [vegetationPixels] is the number of pixels so marked. *)
Theorem analyzeImage_classifies (thresholdMethod : ThresholdMethod)
    (threshold : float) (selectedIndices : SelectedIndices) (img : ImageData) :
  NoDup (keys selectedIndices) -> resolves selectedIndices ->
  let tau := currentThreshold thresholdMethod threshold img in
  let ps := pixels (data img) in
  exists r mask binaryData,
    analyzeImage thresholdMethod threshold selectedIndices img =
      Ok (r, mask, binaryData) /\
    mask = map (fun p => (tau <=? specExG p)%float) ps /\
    specExG (0, 0, 0) = 0%float /\
    vegetationPixels r =
      Z.of_nat (List.length (filter (fun b : bool => b) mask)).
Proof.
  intros Hnd Hres tau ps.
  destruct (analyzeImage_run thresholdMethod threshold selectedIndices img Hnd Hres)
    as (r & binaryData & Hrun & _ & HV & _).
  fold tau in Hrun, HV. fold ps in Hrun, HV.
  assert (Hmask : map (isVegetation tau) ps =
                  map (fun p => (tau <=? specExG p)%float) ps).
  { apply map_ext. intros p. unfold isVegetation. now rewrite pixelExG_spec. }
  exists r, (map (isVegetation tau) ps), binaryData.
  split; [exact Hrun|]. split; [exact Hmask|]. split; [reflexivity|].
  rewrite HV. f_equal. clear.
  induction ps as [|p ps IH]; simpl; [reflexivity|].
  destruct (isVegetation tau p); simpl; now rewrite IH.
Qed.

(** ** The registry *)

Lemma ALGORITHMS_GLI :
  get ALGORITHMS "GLI" =
  Some {| name := "Green Leaf Index"; calculate := GLI_calculate |}.
Proof. reflexivity. Qed.

Lemma ALGORITHMS_GLA :
  get ALGORITHMS "GLA" =
  Some {| name := "Green Leaf Algorithm"; calculate := GLA_calculate |}.
Proof. reflexivity. Qed.

Lemma ALGORITHMS_MGRVI :
  get ALGORITHMS "MGRVI" =
  Some {| name := "Modified Green Red Vegetation Index";
          calculate := MGRVI_calculate |}.
Proof. reflexivity. Qed.

Lemma ALGORITHMS_RGBVI :
  get ALGORITHMS "RGBVI" =
  Some {| name := "Red Green Blue Vegetation Index";
          calculate := RGBVI_calculate |}.
Proof. reflexivity. Qed.

Lemma ALGORITHMS_VEG :
  get ALGORITHMS "VEG" =
  Some {| name := "Vegetativen"; calculate := VEG_calculate |}.
Proof. reflexivity. Qed.

(** C8.  GLI and GLA are two entries of the registry, under different keys,
    whose [calculate] agree on every triple. *)
Theorem GLA_agrees_with_GLI :
  exists gli gla,
    get ALGORITHMS "GLI" = Some gli /\
    get ALGORITHMS "GLA" = Some gla /\
    "GLI" <> "GLA" /\
    forall r g b : float, calculate gla r g b = calculate gli r g b.
Proof.
  eexists. eexists.
  split; [apply ALGORITHMS_GLI|]. split; [apply ALGORITHMS_GLA|].
  split; [discriminate|]. reflexivity.
Qed.

(** ** Degenerate pixels *)

Lemma positive_finite_inv (x : float) :
  positive_finite x -> exists m e, Prim2SF x = S754_finite false m e.
Proof.
  intros [Hpos Hfin]. rewrite ltb_spec in Hpos, Hfin.
  change (Prim2SF 0) with (S754_zero false) in Hpos.
  change (Prim2SF infinity) with (S754_infinity false) in Hfin.
  destruct (Prim2SF x) as [s|s| |s m e]; try destruct s; try discriminate.
  now exists m, e.
Qed.

Lemma mul_zero_positive (x : float) :
  positive_finite x -> (0 * x)%float = 0%float.
Proof.
  intros H. destruct (positive_finite_inv x H) as (m & e & Hx).
  apply Prim2SF_inj. rewrite mul_spec, Hx. reflexivity.
Qed.

Lemma mul_positive_zero (x : float) :
  positive_finite x -> (x * 0)%float = 0%float.
Proof.
  intros H. destruct (positive_finite_inv x H) as (m & e & Hx).
  apply Prim2SF_inj. rewrite mul_spec, Hx. reflexivity.
Qed.

Lemma div_positive_zero (x : float) :
  positive_finite x -> (x / 0)%float = infinity.
Proof.
  intros H. destruct (positive_finite_inv x H) as (m & e & Hx).
  apply Prim2SF_inj. rewrite div_spec, Hx. reflexivity.
Qed.

Lemma VEG_black :
  (forall y : float, (0 <? y)%float = true -> Math_pow 0 y = 0%float) ->
  VEG_calculate 0 0 0 = nan.
Proof.
  intros Hpow. unfold VEG_calculate.
  rewrite !Hpow by reflexivity. reflexivity.
Qed.

(** C9.  The unguarded formulas leave the finite numbers on degenerate
    pixels: on a black pixel MGRVI and RGBVI are 0/0 = NaN, and so is VEG
    once the powers of 0 are 0; with a positive green and the red or the
    blue channel at 0, VEG divides by 0 and is infinite, as on a pure green
    pixel.  Nothing is raised: the analysis of an image with a black pixel
    returns a result whose whole-image mean for such a key is NaN. *)
Theorem degenerate_pixels_propagate_NaN :
  (forall y : float, (0 <? y)%float = true -> Math_pow 0 y = 0%float) ->
  MGRVI_calculate 0 0 0 = nan /\
  RGBVI_calculate 0 0 0 = nan /\
  VEG_calculate 0 0 0 = nan /\
  (forall g b : float,
      positive_finite g -> positive_finite (Math_pow b (1 - 0.667)) ->
      VEG_calculate 0 g b = infinity) /\
  (forall r g : float,
      positive_finite g -> positive_finite (Math_pow r 0.667) ->
      VEG_calculate r g 0 = infinity) /\
  normalizeRGB 0 255 0 = (0%float, 1%float, 0%float) /\
  VEG_calculate 0 1 0 = infinity /\
  forall (thresholdMethod : ThresholdMethod) (threshold : float)
         (selectedIndices : SelectedIndices) (img : ImageData) (key : string),
    NoDup (keys selectedIndices) -> resolves selectedIndices ->
    In (key, true) selectedIndices ->
    key = "MGRVI" \/ key = "RGBVI" \/ key = "VEG" ->
    In (0, 0, 0) (pixels (data img)) ->
    exists r mask binaryData,
      analyzeImage thresholdMethod threshold selectedIndices img =
        Ok (r, mask, binaryData) /\
      get (indices_whole r) key = Some nan.
Proof.
  intros Hpow.
  split; [reflexivity|]. split; [reflexivity|].
  split; [now apply VEG_black|].
  split.
  { intros g b Hg Hb. unfold VEG_calculate.
    rewrite Hpow by reflexivity.
    rewrite (mul_zero_positive _ Hb). now apply div_positive_zero. }
  split.
  { intros r g Hg Hr. unfold VEG_calculate.
    rewrite (Hpow (1 - 0.667)%float) by reflexivity.
    rewrite (mul_positive_zero _ Hr). now apply div_positive_zero. }
  split; [reflexivity|].
  split.
  { unfold VEG_calculate. rewrite !Hpow by reflexivity. reflexivity. }
  intros thresholdMethod threshold selectedIndices img key Hnd Hres Hin Hkey Hblack.
  destruct (analyzeImage_run thresholdMethod threshold selectedIndices img Hnd Hres)
    as (r & binaryData & Hrun & _ & _ & _ & Hidx).
  eexists r, _, binaryData. split; [exact Hrun|].
  assert (Hnan : forall a, get ALGORITHMS key = Some a ->
                           indexValue a (0, 0, 0) = nan).
  { intros a Ha. destruct Hkey as [-> | [-> | ->]].
    - rewrite ALGORITHMS_MGRVI in Ha. inversion Ha. reflexivity.
    - rewrite ALGORITHMS_RGBVI in Ha. inversion Ha. reflexivity.
    - rewrite ALGORITHMS_VEG in Ha. inversion Ha.
      change (VEG_calculate 0 0 0 = nan). now apply VEG_black. }
  destruct (get ALGORITHMS key) as [a|] eqn:Ha;
    [|exfalso; now apply (Hres key Hin)].
  destruct (Hidx key a Hin Ha) as [Hw _].
  rewrite Hw. f_equal. unfold sumF.
  rewrite sum_with_nan; [apply div_nan_l|].
  rewrite <- (Hnan a eq_refl). now apply in_map.
Qed.

(** ** The CSV document *)

Lemma append_nil_r (s : string) : s ++ "" = s.
Proof. induction s as [|c s IH]; simpl; [reflexivity|now rewrite IH]. Qed.

Lemma append_assoc (s1 s2 s3 : string) : (s1 ++ s2) ++ s3 = s1 ++ s2 ++ s3.
Proof. induction s1 as [|c s1 IH]; simpl; [reflexivity|now rewrite IH]. Qed.

Lemma join_cons (sep x : string) (xs : list string) :
  join sep (x :: xs) = x ++ prefixed sep xs.
Proof.
  unfold join. revert x. induction xs as [|y xs IH]; intros x.
  - simpl. now rewrite append_nil_r.
  - change (String.concat sep (x :: y :: xs))
      with (x ++ sep ++ String.concat sep (y :: xs)).
    now rewrite IH.
Qed.

Lemma prefixed_app (sep : string) (xs ys : list string) :
  prefixed sep (xs ++ ys) = prefixed sep xs ++ prefixed sep ys.
Proof.
  induction xs as [|x xs IH]; simpl; [reflexivity|].
  now rewrite IH, !append_assoc.
Qed.

Lemma mapM_ok {A B : Type} (f : A -> outcome B) (g : A -> B) (xs : list A) :
  (forall x, In x xs -> f x = Ok (g x)) -> mapM f xs = Ok (map g xs).
Proof.
  induction xs as [|x xs IH]; intros H; simpl; [reflexivity|].
  rewrite (H x) by now left. simpl.
  rewrite IH by (intros y Hy; apply H; now right). reflexivity.
Qed.

Lemma indexCell_defined (o : JsObject float) (key : string) :
  get o key <> None -> indexCell o key = Ok (toFixed (getNum o key) 4).
Proof.
  unfold indexCell, getNum. destruct (get o key); [reflexivity|contradiction].
Qed.

Lemma csvHeaders_line (st : State) :
  (forall k, In k (selectedKeys (state_selectedIndices st)) ->
             get ALGORITHMS k <> None) ->
  exists headers,
    csvHeaders st = Ok headers /\
    join "," headers = specHeader (selectedKeys (state_selectedIndices st)).
Proof.
  intros Hres. unfold csvHeaders.
  rewrite (mapM_ok _ (fun key => displayName key ++ " (Vegetation)")).
  2:{ intros k Hk. unfold algorithm, displayName.
      destruct (get ALGORITHMS k) eqn:E; [reflexivity|now apply Hres in Hk]. }
  cbn [bind].
  rewrite (mapM_ok _ (fun key => displayName key ++ " (Whole)")).
  2:{ intros k Hk. unfold algorithm, displayName.
      destruct (get ALGORITHMS k) eqn:E; [reflexivity|now apply Hres in Hk]. }
  cbn [bind]. eexists. split; [reflexivity|].
  cbn [app]. rewrite join_cons. cbn [prefixed]. rewrite prefixed_app.
  reflexivity.
Qed.

Lemma csvRow_line (st : State) (r : BatchRecord) :
  (forall k, In k (selectedKeys (state_selectedIndices st)) ->
             get (indices_vegetation (result r)) k <> None /\
             get (indices_whole (result r)) k <> None) ->
  exists row,
    csvRow st r = Ok row /\
    join "," row = specRow st (selectedKeys (state_selectedIndices st)) r.
Proof.
  intros Hdef. unfold csvRow.
  rewrite (mapM_ok _ (fun key => toFixed (getNum (indices_vegetation (result r)) key) 4)).
  2:{ intros k Hk. apply indexCell_defined. now apply Hdef. }
  cbn [bind].
  rewrite (mapM_ok _ (fun key => toFixed (getNum (indices_whole (result r)) key) 4)).
  2:{ intros k Hk. apply indexCell_defined. now apply Hdef. }
  cbn [bind]. eexists. split; [reflexivity|].
  cbn [app]. rewrite join_cons. cbn [prefixed]. rewrite prefixed_app.
  reflexivity.
Qed.

Lemma csvRows_lines (st : State) (results : list BatchRecord) :
  (forall r k, In r results ->
     In k (selectedKeys (state_selectedIndices st)) ->
     get (indices_vegetation (result r)) k <> None /\
     get (indices_whole (result r)) k <> None) ->
  exists rows,
    mapM (csvRow st) results = Ok rows /\
    map (join ",") rows =
      map (specRow st (selectedKeys (state_selectedIndices st))) results.
Proof.
  induction results as [|r results IH]; intros Hdef.
  - exists []. split; reflexivity.
  - destruct (csvRow_line st r) as (row & Hrow & Hline).
    { intros k Hk. apply Hdef; [now left|assumption]. }
    destruct IH as (rows & Hrows & Hlines).
    { intros r' k Hr' Hk. apply Hdef; [now right|assumption]. }
    exists (row :: rows). cbn [mapM]. rewrite Hrow. cbn [bind]. rewrite Hrows.
    cbn [bind map]. split; [reflexivity|]. now rewrite Hline, Hlines.
Qed.

Lemma selectedKeys_chosenKeys (selectedIndices : SelectedIndices) :
  selectedKeys selectedIndices = chosenKeys selectedIndices.
Proof.
  unfold selectedKeys, entries.
  induction selectedIndices as [|[k b] sel IH]; [reflexivity|].
  destruct b; cbn [filter snd map fst chosenKeys]; now rewrite IH.
Qed.

(** C7.  The CSV text is the header line, the six fixed columns followed
    by one "(Vegetation)" column per chosen key and then one "(Whole)"
    column per chosen key, the chosen keys being the entries of the
    selection with a true flag in the order of the selection; after it
    comes one line per record in the order of the batch; cells are joined
    by commas and lines by line feeds, with no quoting; the threshold cell
    is "auto" under Otsu and the threshold to 3 decimals otherwise; the
    coverage has 2 decimals and the index values 4. *)
Theorem csvContent_layout (st : State) (results : list BatchRecord) :
  (forall k, In k (chosenKeys (state_selectedIndices st)) ->
             get ALGORITHMS k <> None) ->
  (forall r k, In r results ->
     In k (chosenKeys (state_selectedIndices st)) ->
     get (indices_vegetation (result r)) k <> None /\
     get (indices_whole (result r)) k <> None) ->
  csvContent st results = Ok (specDocument st results).
Proof.
  intros Hres Hdef. unfold csvContent, specDocument.
  rewrite <- selectedKeys_chosenKeys in *.
  destruct (csvHeaders_line st Hres) as (headers & Hh & Hline).
  destruct (csvRows_lines st results Hdef) as (rows & Hr & Hlines).
  rewrite Hh. cbn [bind]. rewrite Hr. cbn [bind].
  fold newline. rewrite join_cons, Hline, Hlines. reflexivity.
Qed.

(** ** The batch *)

Lemma processImage_batch_silent (st : State) (img : HTMLImageElement) :
  fst (processImage st img true) = [].
Proof.
  unfold processImage.
  destruct (negb (state_canvasReady st)); [reflexivity|].
  destruct (getImageData img) as [imageData|e]; [|reflexivity].
  destruct (analyzeImage _ _ _ imageData) as [[[r mask] binaryData]|e];
    reflexivity.
Qed.

Lemma fileFails_decided (st : State) (file : File) :
  (exists e, fileFails st file e) \/ filePasses st file.
Proof.
  unfold filePasses, fileFails.
  destruct (loadImage file) as [img|e0] eqn:Hload.
  - destruct (snd (processImage st img true)) as [r|e1] eqn:Hproc.
    + right. intros e [H|(img' & H & Hp)]; [discriminate|].
      inversion H; subst img'. rewrite Hproc in Hp. discriminate.
    + left. exists e1. right. exists img. now split.
  - left. exists e0. now left.
Qed.

(** A batch with a failing file has a first one. *)
Lemma first_failure (st : State) (files : list File) :
  (exists file e, In file files /\ fileFails st file e) ->
  exists passed bad rest e,
    files = (passed ++ bad :: rest)%list /\
    Forall (filePasses st) passed /\ fileFails st bad e.
Proof.
  induction files as [|file files IH]; intros (f & e & Hin & Hfail).
  - destruct Hin.
  - destruct (fileFails_decided st file) as [[e0 Hf]|Hpass].
    + exists [], file, files, e0. repeat split; [constructor|exact Hf].
    + destruct IH as (passed & bad & rest & e' & Hsplit & Hpassed & Hbad).
      { exists f, e. split; [|exact Hfail].
        destruct Hin as [<-|Hin]; [|exact Hin]. now apply Hpass in Hfail. }
      exists (file :: passed), bad, rest, e'. rewrite Hsplit.
      repeat split; [now constructor|exact Hbad].
Qed.

(** The loop reads the files up to the first failing one and throws its
    error. *)
Lemma batchLoop_first_failure (st : State) (bad : File) (rest : list File)
    (e : exn) :
  fileFails st bad e ->
  forall (passed : list File) (results : list BatchRecord),
    Forall (filePasses st) passed ->
    batchLoop st (passed ++ bad :: rest) results =
      (loadCalls (passed ++ [bad]), Throw e).
Proof.
  intros Hfail passed. induction passed as [|file passed IH];
    intros results Hpassed.
  - cbn [app batchLoop loadCalls map].
    destruct Hfail as [Hload|(img & Hload & Hproc)]; rewrite Hload;
      [reflexivity|].
    pose proof (processImage_batch_silent st img) as Hfx.
    destruct (processImage st img true) as [fx r].
    cbn [fst snd] in Hfx, Hproc. now subst.
  - inversion Hpassed as [|? ? Hpass Hpassed']; subst.
    cbn [app batchLoop].
    destruct (loadImage file) as [img|e0] eqn:Hload;
      [|exfalso; apply (Hpass e0); now left].
    pose proof (processImage_batch_silent st img) as Hfx.
    destruct (processImage st img true) as [fx r] eqn:Hproc.
    cbn [fst] in Hfx. subst fx.
    destruct r as [[result|]|e1].
    + rewrite IH by assumption. reflexivity.
    + rewrite IH by assumption. reflexivity.
    + exfalso. apply (Hpass e1). right. exists img.
      split; [exact Hload|now rewrite Hproc].
Qed.

(** Without a canvas no image yields a record, and none is a failure: the
    loop reads every file and leaves the records as they were. *)
Lemma batchLoop_without_canvas (st : State) (files : list File) :
  state_canvasReady st = false ->
  Forall (fun file => exists img, loadImage file = Ok img) files ->
  forall results : list BatchRecord,
    batchLoop st files results = (loadCalls files, Ok results).
Proof.
  intros Hcanvas Hload. induction Hload as [|file files [img Himg] _ IH];
    intros results; [reflexivity|].
  cbn [batchLoop]. rewrite Himg. unfold processImage. rewrite Hcanvas.
  cbn [negb]. rewrite IH. reflexivity.
Qed.

(** C6.  When reading or analysing a file of the batch fails, the run ends
    at the first such file: the files before it are read once each, in
    order, then the failing file, and none after it; that file's error is
    logged and the batch alert shown; no CSV is downloaded, so the records
    pushed so far are dropped with the run; then the flag is reset. *)
Theorem processBatchImages_aborts (st : State) (batchFiles : list File) :
  (exists file e, In file batchFiles /\ fileFails st file e) ->
  exists passed bad rest e,
    batchFiles = (passed ++ bad :: rest)%list /\
    Forall (filePasses st) passed /\
    fileFails st bad e /\
    processBatchImages st batchFiles =
      (SetIsProcessing true :: loadCalls (passed ++ [bad]) ++
       [ConsoleError e; Alert (state_language st) errors_batch;
        SetIsProcessing false])%list /\
    forall csv, ~ In (Download csv) (processBatchImages st batchFiles).
Proof.
  intros Hfail.
  destruct (first_failure st batchFiles Hfail)
    as (passed & bad & rest & e & Hsplit & Hpassed & Hbad).
  assert (Htrace : processBatchImages st batchFiles =
            (SetIsProcessing true :: loadCalls (passed ++ [bad]) ++
             [ConsoleError e; Alert (state_language st) errors_batch;
              SetIsProcessing false])%list).
  { unfold processBatchImages. rewrite Hsplit.
    rewrite (batchLoop_first_failure st bad rest e Hbad passed [] Hpassed).
    cbn [bind]. reflexivity. }
  exists passed, bad, rest, e.
  split; [exact Hsplit|]. split; [exact Hpassed|]. split; [exact Hbad|].
  split; [exact Htrace|].
  intros csv Hin. rewrite Htrace in Hin.
  destruct Hin as [Heq|Hin]; [discriminate|].
  apply in_app_or in Hin. destruct Hin as [Hin|Hin].
  - unfold loadCalls in Hin. apply in_map_iff in Hin.
    destruct Hin as (f & Heq & _). discriminate.
  - simpl in Hin. destruct Hin as [H|[H|[H|[]]]]; discriminate.
Qed.

(** ** The binary image, the counts and the keys of a result *)

Lemma pass_binaryData_run (tau : float) (selectedIndices : SelectedIndices) :
  forall (ps : list Pixel) (s s' : PassState),
    forEachM (pixelStep tau selectedIndices) ps s = Ok s' ->
    pass_binaryData s' =
      (pass_binaryData s ++
       flat_map (fun p => binaryPixel (isVegetation tau p)) ps)%list.
Proof.
  induction ps as [|p ps IH]; intros s s' Hrun.
  - simpl in Hrun. inversion Hrun. simpl. now rewrite app_nil_r.
  - cbn [forEachM] in Hrun. unfold pixelStep at 1 in Hrun.
    destruct (accumulate selectedIndices p (isVegetation tau p)
                (pass_vegetationIndices s, pass_wholeIndices s)) as [acc|e];
      cbn [bind] in Hrun; [|discriminate].
    apply IH in Hrun. rewrite Hrun. cbn [pass_binaryData flat_map].
    unfold binaryPixel at 2. now rewrite <- app_assoc.
Qed.

Lemma analyzeImage_binaryData (thresholdMethod : ThresholdMethod)
    (threshold : float) (selectedIndices : SelectedIndices) (img : ImageData)
    (r : AnalysisResult) (mask : list bool) (binaryData : list Z) :
  analyzeImage thresholdMethod threshold selectedIndices img =
    Ok (r, mask, binaryData) ->
  binaryData =
    flat_map
      (fun p => binaryPixel
                  (isVegetation (currentThreshold thresholdMethod threshold img) p))
      (pixels (data img)).
Proof.
  unfold analyzeImage.
  destruct (initIndices selectedIndices) as [veg0 whole0].
  destruct (forEachM _ (pixels (data img)) _) as [s|e] eqn:Hrun;
    cbn [bind]; [|discriminate].
  apply pass_binaryData_run in Hrun. cbn [pass_binaryData app] in Hrun.
  destruct (averages _ _ _) as [vegF wholeF].
  intros H. inversion H. now rewrite <- Hrun.
Qed.

Lemma flat_map_binaryPixel_length (f : Pixel -> bool) (ps : list Pixel) :
  Z.of_nat (List.length (flat_map (fun p => binaryPixel (f p)) ps)) =
  4 * Z.of_nat (List.length ps).
Proof.
  induction ps as [|p ps IH]; [reflexivity|].
  cbn [flat_map]. rewrite length_app.
  replace (List.length (binaryPixel (f p))) with 4%nat
    by (destruct (f p); reflexivity).
  cbn [List.length]. lia.
Qed.

Lemma flat_map_binaryPixel_bytes (f : Pixel -> bool) (ps : list Pixel) :
  Forall byte_range (flat_map (fun p => binaryPixel (f p)) ps).
Proof.
  induction ps as [|p ps IH]; [constructor|].
  cbn [flat_map]. apply Forall_app. split; [|exact IH].
  destruct (f p); repeat constructor; unfold byte_range; lia.
Qed.

Lemma pixels_flat_map_binaryPixel (f : Pixel -> bool) (ps : list Pixel) :
  pixels (flat_map (fun p => binaryPixel (f p)) ps) =
  map (fun p => if f p then (255, 255, 255) else (0, 0, 0)) ps.
Proof.
  induction ps as [|p ps IH]; [reflexivity|].
  cbn [flat_map map]. destruct (f p); cbn [binaryPixel app];
    rewrite pixels_quad; now rewrite IH.
Qed.

(** X1.  The binary image has four bytes per pixel of the input, in pixel
    order: opaque white where the pixel is vegetation and opaque black
    elsewhere.  It is as long as the input data and all its bytes are
    bytes. *)
Theorem analyzeImage_binary_image (thresholdMethod : ThresholdMethod)
    (threshold : float) (selectedIndices : SelectedIndices) (img : ImageData) :
  wellFormed img ->
  NoDup (keys selectedIndices) -> resolves selectedIndices ->
  let tau := currentThreshold thresholdMethod threshold img in
  exists r mask binaryData,
    analyzeImage thresholdMethod threshold selectedIndices img =
      Ok (r, mask, binaryData) /\
    pixels binaryData =
      map (fun p => if (tau <=? specExG p)%float
                    then (255, 255, 255) else (0, 0, 0))
          (pixels (data img)) /\
    withAlpha 255 binaryData = binaryData /\
    List.length binaryData = List.length (data img) /\
    Forall byte_range binaryData.
Proof.
  intros Hwf Hnd Hres tau.
  destruct (analyzeImage_run thresholdMethod threshold selectedIndices img Hnd Hres)
    as (r & binaryData & Hrun & _).
  pose proof (analyzeImage_binaryData _ _ _ _ _ _ _ Hrun) as Hbin.
  fold tau in Hbin, Hrun.
  exists r, (map (isVegetation tau) (pixels (data img))), binaryData.
  split; [exact Hrun|]. subst binaryData.
  split; [|split; [|split]].
  - rewrite pixels_flat_map_binaryPixel. apply map_ext. intros p.
    unfold isVegetation. now rewrite pixelExG_spec.
  - clear. induction (pixels (data img)) as [|p ps IH]; [reflexivity|].
    cbn [flat_map]. destruct (isVegetation tau p); cbn [binaryPixel app withAlpha];
      now rewrite IH.
  - destruct Hwf as (_ & _ & Hlen & _).
    pose proof (flat_map_binaryPixel_length (isVegetation tau) (pixels (data img))).
    pose proof (pixels_length _ _ Hlen). lia.
  - apply flat_map_binaryPixel_bytes.
Qed.

Lemma filter_length_le {A : Type} (f : A -> bool) (l : list A) :
  (List.length (filter f l) <= List.length l)%nat.
Proof.
  induction l as [|x l IH]; simpl; [lia|]. destruct (f x); simpl; lia.
Qed.

(** X2.  In the result of a well-formed image the vegetation count lies
    between 0 and the pixel count, and the mask has one entry per pixel. *)
Theorem analyzeImage_counts_bounded (thresholdMethod : ThresholdMethod)
    (threshold : float) (selectedIndices : SelectedIndices) (img : ImageData) :
  wellFormed img ->
  NoDup (keys selectedIndices) -> resolves selectedIndices ->
  exists r mask binaryData,
    analyzeImage thresholdMethod threshold selectedIndices img =
      Ok (r, mask, binaryData) /\
    0 <= vegetationPixels r <= totalPixels r /\
    Z.of_nat (List.length mask) = totalPixels r /\
    totalPixels r = width img * height img.
Proof.
  intros (_ & _ & Hlen & _) Hnd Hres.
  destruct (analyzeImage_run thresholdMethod threshold selectedIndices img Hnd Hres)
    as (r & binaryData & Hrun & HT & HV & _).
  eexists r, _, binaryData. split; [exact Hrun|].
  pose proof (pixels_length _ _ Hlen) as Hpix.
  rewrite HT, HV, length_map.
  pose proof (filter_length_le
                (isVegetation (currentThreshold thresholdMethod threshold img))
                (pixels (data img))).
  repeat split; lia.
Qed.

Lemma keys_assign_absent {A : Type} (o : JsObject A) (k : string) (v : A) :
  ~ In k (keys o) -> keys (assign o k v) = (keys o ++ [k])%list.
Proof.
  induction o as [|[k' v'] o IH]; simpl; intros Hn; [reflexivity|].
  destruct (String.eqb k' k) eqn:E.
  - apply String.eqb_eq in E. exfalso. apply Hn. now left.
  - simpl. f_equal. apply IH. intros Hin. apply Hn. now right.
Qed.

Lemma init_fold_keys (selectedIndices : SelectedIndices) :
  forall (es : list (string * bool)) (veg whole : JsObject float),
    (forall k b, In (k, b) es -> get selectedIndices k = Some b) ->
    NoDup (map fst es) ->
    (forall k, In k (map fst es) -> ~ In k (keys veg) /\ ~ In k (keys whole)) ->
    keys (fst (fold_left (initStep selectedIndices) (map fst es) (veg, whole))) =
      (keys veg ++ selectedKeys es)%list /\
    keys (snd (fold_left (initStep selectedIndices) (map fst es) (veg, whole))) =
      (keys whole ++ selectedKeys es)%list.
Proof.
  induction es as [|[k b] es IH]; intros veg whole Hget Hnd Hfresh.
  - simpl. now rewrite !app_nil_r.
  - inversion Hnd as [|? ? Hnotin Hnd']; subst.
    cbn [map fst fold_left]. unfold initStep at 2 4.
    rewrite (Hget k b) by now left.
    destruct (Hfresh k) as [Hfv Hfw]; [now left|].
    assert (Hget' : forall k' b', In (k', b') es -> get selectedIndices k' = Some b')
      by (intros k' b' H; apply Hget; now right).
    destruct b.
    + destruct (IH (assign veg k 0%float) (assign whole k 0%float) Hget' Hnd')
        as [Hv Hw].
      { intros k' Hk'. rewrite !keys_assign_absent by assumption.
        destruct (Hfresh k') as [Hv' Hw']; [now right|].
        assert (Hne : k' <> k) by (intros ->; contradiction).
        split; intros Hin; apply in_app_or in Hin;
          destruct Hin as [Hin|[Heq|[]]]; try contradiction;
          apply Hne; now symmetry. }
      rewrite Hv, Hw, !keys_assign_absent by assumption.
      unfold selectedKeys, entries. cbn [filter snd map fst].
      now rewrite <- !app_assoc.
    + destruct (IH veg whole Hget' Hnd') as [Hv Hw].
      { intros k' Hk'. apply Hfresh. now right. }
      rewrite Hv, Hw. unfold selectedKeys, entries. cbn [filter snd].
      split; reflexivity.
Qed.

Lemma initIndices_keys (selectedIndices : SelectedIndices) :
  NoDup (keys selectedIndices) ->
  keys (fst (initIndices selectedIndices)) = selectedKeys selectedIndices /\
  keys (snd (initIndices selectedIndices)) = selectedKeys selectedIndices.
Proof.
  intros Hnd. unfold initIndices, keys at 1 3.
  apply (init_fold_keys selectedIndices selectedIndices [] []); auto.
  intros k b Hin. now apply get_entry.
Qed.

Lemma selectedKeys_In (selectedIndices : SelectedIndices) (k : string) :
  In k (selectedKeys selectedIndices) <-> In (k, true) selectedIndices.
Proof.
  unfold selectedKeys, entries. rewrite in_map_iff. split.
  - intros ([k' b] & Heq & Hin). apply filter_In in Hin.
    destruct Hin as [Hin Hb]. simpl in Heq, Hb. now subst.
  - intros Hin. exists (k, true). split; [reflexivity|].
    apply filter_In. now split.
Qed.

Lemma accumulate_keys (p : Pixel) (isVeg : bool) :
  forall (es : list (string * bool)) (veg whole veg' whole' : JsObject float),
    forEachM (accumulateStep p isVeg) es (veg, whole) = Ok (veg', whole') ->
    (forall k, In (k, true) es -> In k (keys veg) /\ In k (keys whole)) ->
    keys veg' = keys veg /\ keys whole' = keys whole.
Proof.
  induction es as [|[k0 b0] es IH]; intros veg whole veg' whole' Hrun Hin.
  - simpl in Hrun. inversion Hrun. now split.
  - cbn [forEachM accumulateStep] in Hrun. destruct b0.
    + destruct (algorithm k0) as [a0|e]; cbn [bind] in Hrun; [|discriminate].
      destruct (Hin k0) as [Hkv Hkw]; [now left|].
      apply IH in Hrun.
      * destruct Hrun as [Hv Hw]. rewrite Hv, Hw.
        rewrite keys_assign_present by assumption.
        destruct isVeg; [rewrite keys_assign_present by assumption|]; now split.
      * intros k Hk. rewrite keys_assign_present by assumption.
        destruct (Hin k) as [Hv Hw]; [now right|].
        destruct isVeg; [rewrite keys_assign_present by assumption|]; now split.
    + cbn [bind] in Hrun. apply IH in Hrun; [exact Hrun|].
      intros k Hk. apply Hin. now right.
Qed.

Lemma pass_keys (tau : float) (selectedIndices : SelectedIndices) :
  forall (ps : list Pixel) (s s' : PassState),
    forEachM (pixelStep tau selectedIndices) ps s = Ok s' ->
    (forall k, In (k, true) selectedIndices ->
       In k (keys (pass_vegetationIndices s)) /\ In k (keys (pass_wholeIndices s))) ->
    keys (pass_vegetationIndices s') = keys (pass_vegetationIndices s) /\
    keys (pass_wholeIndices s') = keys (pass_wholeIndices s).
Proof.
  induction ps as [|p ps IH]; intros s s' Hrun Hin.
  - simpl in Hrun. inversion Hrun. now split.
  - cbn [forEachM] in Hrun. unfold pixelStep at 1 in Hrun.
    destruct (accumulate selectedIndices p (isVegetation tau p)
                (pass_vegetationIndices s, pass_wholeIndices s))
      as [[veg1 whole1]|e] eqn:Hacc; cbn [bind] in Hrun; [|discriminate].
    apply (accumulate_keys _ _ _ _ _ _ _ Hacc) in Hin as Hkeys.
    destruct Hkeys as [Hv1 Hw1].
    apply IH in Hrun.
    + cbn [pass_vegetationIndices pass_wholeIndices fst snd] in Hrun.
      now rewrite Hv1, Hw1 in Hrun.
    + cbn [pass_vegetationIndices pass_wholeIndices fst snd].
      rewrite Hv1, Hw1. exact Hin.
Qed.

Lemma average_fold_keys (T V : Z) :
  forall (ks : list string) (veg whole : JsObject float),
    (forall k, In k ks -> In k (keys veg) /\ In k (keys whole)) ->
    keys (fst (fold_left (averageStep T V) ks (veg, whole))) = keys veg /\
    keys (snd (fold_left (averageStep T V) ks (veg, whole))) = keys whole.
Proof.
  induction ks as [|k0 ks IH]; intros veg whole Hin; [now split|].
  cbn [fold_left averageStep].
  destruct (Hin k0) as [Hv Hw]; [now left|].
  match goal with |- context [fold_left _ ks (?v1, ?w1)] =>
    destruct (IH v1 w1) as [Hv1 Hw1] end.
  - intros k Hk. rewrite !keys_assign_present by assumption.
    apply Hin. now right.
  - rewrite Hv1, Hw1, !keys_assign_present by assumption. now split.
Qed.

Lemma analyzeImage_result_keys (thresholdMethod : ThresholdMethod)
    (threshold : float) (selectedIndices : SelectedIndices) (img : ImageData)
    (r : AnalysisResult) (mask : list bool) (binaryData : list Z) :
  NoDup (keys selectedIndices) ->
  analyzeImage thresholdMethod threshold selectedIndices img =
    Ok (r, mask, binaryData) ->
  keys (indices_vegetation r) = selectedKeys selectedIndices /\
  keys (indices_whole r) = selectedKeys selectedIndices.
Proof.
  intros Hnd. unfold analyzeImage.
  destruct (initIndices_keys selectedIndices Hnd) as [Hv0 Hw0].
  destruct (initIndices selectedIndices) as [veg0 whole0].
  cbn [fst snd] in Hv0, Hw0.
  destruct (forEachM _ (pixels (data img)) _) as [s|e] eqn:Hrun;
    cbn [bind]; [|discriminate].
  apply pass_keys in Hrun.
  2:{ cbn [pass_vegetationIndices pass_wholeIndices]. intros k Hk.
      rewrite Hv0, Hw0. split; now apply selectedKeys_In. }
  cbn [pass_vegetationIndices pass_wholeIndices] in Hrun.
  destruct Hrun as [Hv Hw]. rewrite Hv0 in Hv. rewrite Hw0 in Hw.
  unfold averages. cbn [snd].
  destruct (average_fold_keys (width img * height img) (pass_vegetationPixels s)
              (keys (pass_wholeIndices s))
              (pass_vegetationIndices s) (pass_wholeIndices s)) as [HvF HwF].
  { intros k Hk. rewrite Hv. rewrite Hw in Hk |- *. now split. }
  destruct (fold_left _ (keys (pass_wholeIndices s)) _) as [vegF wholeF].
  cbn [fst snd] in HvF, HwF.
  intros H. inversion H. cbn [indices_vegetation indices_whole].
  rewrite HvF, HwF, Hv, Hw. now split.
Qed.

(** X3.  The two records of a result hold exactly the selected keys, in the
    order in which the selection lists them. *)
Theorem analyzeImage_selected_keys (thresholdMethod : ThresholdMethod)
    (threshold : float) (selectedIndices : SelectedIndices) (img : ImageData) :
  NoDup (keys selectedIndices) -> resolves selectedIndices ->
  exists r mask binaryData,
    analyzeImage thresholdMethod threshold selectedIndices img =
      Ok (r, mask, binaryData) /\
    keys (indices_vegetation r) = selectedKeys selectedIndices /\
    keys (indices_whole r) = selectedKeys selectedIndices.
Proof.
  intros Hnd Hres.
  destruct (analyzeImage_run thresholdMethod threshold selectedIndices img Hnd Hres)
    as (r & binaryData & Hrun & _).
  eexists r, _, binaryData. split; [exact Hrun|].
  exact (analyzeImage_result_keys _ _ _ _ _ _ _ Hnd Hrun).
Qed.

(** ** A selected key that the registry does not know *)

Lemma forEachM_app {A S : Type} (step : S -> A -> outcome S) (xs ys : list A)
    (s : S) :
  forEachM step (xs ++ ys) s = (s' <- forEachM step xs s ;; forEachM step ys s').
Proof.
  revert s. induction xs as [|x xs IH]; intros s; [reflexivity|].
  cbn [app forEachM]. destruct (step s x) as [s1|e]; cbn [bind]; [apply IH|reflexivity].
Qed.

Lemma accumulate_defined (p : Pixel) (isVeg : bool) :
  forall (es : list (string * bool)) (acc : JsObject float * JsObject float),
    (forall k, In (k, true) es -> get ALGORITHMS k <> None) ->
    exists acc', forEachM (accumulateStep p isVeg) es acc = Ok acc'.
Proof.
  induction es as [|[k0 b0] es IH]; intros [veg whole] Hres.
  - eexists. reflexivity.
  - cbn [forEachM accumulateStep]. destruct b0.
    + unfold algorithm.
      destruct (get ALGORITHMS k0) as [a0|] eqn:Ea;
        [|exfalso; apply (Hres k0); [now left|assumption]].
      cbn [bind]. apply IH. intros k Hk. apply Hres. now right.
    + cbn [bind]. apply IH. intros k Hk. apply Hres. now right.
Qed.

(** X4.  When the image has at least one pixel, the first selected key that
    is not in the registry makes the analysis throw a TypeError for that
    key. *)
Theorem analyzeImage_unknown_key (thresholdMethod : ThresholdMethod)
    (threshold : float) (before after : SelectedIndices) (key : string)
    (img : ImageData) :
  (forall k, In (k, true) before -> get ALGORITHMS k <> None) ->
  get ALGORITHMS key = None ->
  pixels (data img) <> [] ->
  analyzeImage thresholdMethod threshold (before ++ (key, true) :: after)%list img =
    Throw (TypeError key).
Proof.
  intros Hres Hkey Hpix. unfold analyzeImage.
  destruct (initIndices _) as [veg0 whole0].
  destruct (pixels (data img)) as [|p ps]; [contradiction|].
  cbn [forEachM]. unfold pixelStep at 1. unfold accumulate, entries.
  rewrite forEachM_app.
  match goal with |- context [forEachM (accumulateStep p ?v) before ?acc] =>
    destruct (accumulate_defined p v before acc Hres) as ([veg1 whole1] & Hacc) end.
  rewrite Hacc. cbn [bind forEachM accumulateStep]. unfold algorithm.
  rewrite Hkey. reflexivity.
Qed.

(** ** The alpha channel *)

Lemma pixels_withAlpha (alpha : Z) (d : list Z) :
  pixels (withAlpha alpha d) = pixels d.
Proof.
  induction d as [|r|r g|r g b|r g b a rest IH] using buffer_ind;
    try reflexivity.
  cbn [withAlpha]. rewrite !pixels_quad. now rewrite IH.
Qed.

(** X5.  The analysis never reads the alpha channel: replacing every alpha
    byte of an image by any value, 0 included, leaves its outcome
    unchanged, so transparent pixels are counted and classified like opaque
    ones. *)
Theorem analyzeImage_ignores_alpha (thresholdMethod : ThresholdMethod)
    (threshold : float) (selectedIndices : SelectedIndices) (img : ImageData)
    (alpha : Z) :
  analyzeImage thresholdMethod threshold selectedIndices
    {| width := width img; height := height img;
       data := withAlpha alpha (data img) |} =
  analyzeImage thresholdMethod threshold selectedIndices img.
Proof.
  unfold analyzeImage, currentThreshold, calculateOtsuThreshold, otsuSlot.
  cbn [width height data]. now rewrite pixels_withAlpha.
Qed.

(** ** More on the histogram and the scan *)

(** X6.  After the first loop of [calculateOtsuThreshold] every slot of the
    histogram holds the number of pixels of the buffer whose Excess Green
    bin is that slot. *)
Theorem histogram_counts_pixels (d : list Z) (j : Z) :
  Forall byte_range d -> 0 <= j ->
  slot (buildHistogram (pixels d)) j =
  Z.of_nat (List.length (filter (fun p => otsuBin p =? j) (pixels d))).
Proof.
  intros Hd Hj. now apply buildHistogram_slot; [apply pixels_bytes|].
Qed.

Lemma filter_length_Permutation {A : Type} (f : A -> bool) (l l' : list A) :
  Permutation l l' -> List.length (filter f l) = List.length (filter f l').
Proof.
  induction 1 as [|x l l' _ IH|x y l|l l' l'' _ IH1 _ IH2]; simpl.
  - reflexivity.
  - destruct (f x); simpl; now rewrite IH.
  - destruct (f x), (f y); reflexivity.
  - now rewrite IH1.
Qed.

Lemma buildHistogram_Permutation (ps ps' : list Pixel) :
  Forall pixel_bytes ps -> Forall pixel_bytes ps' -> Permutation ps ps' ->
  buildHistogram ps = buildHistogram ps'.
Proof.
  intros Hb Hb' Hperm.
  apply (nth_ext _ _ 0 0).
  - now rewrite !buildHistogram_length.
  - intros n _.
    pose proof (buildHistogram_slot ps (Z.of_nat n) Hb (Nat2Z.is_nonneg n)) as H.
    pose proof (buildHistogram_slot ps' (Z.of_nat n) Hb' (Nat2Z.is_nonneg n)) as H'.
    unfold slot in H, H'. rewrite Nat2Z.id in H, H'.
    rewrite H, H'. f_equal. now apply filter_length_Permutation.
Qed.

(** X7.  Otsu's threshold depends on the pixels of the buffer only as a
    multiset: two buffers whose pixels are a rearrangement of each other
    get the same threshold. *)
Theorem otsu_order_independent (d d' : list Z) :
  Forall byte_range d -> Forall byte_range d' ->
  Permutation (pixels d) (pixels d') ->
  calculateOtsuThreshold d = calculateOtsuThreshold d'.
Proof.
  intros Hd Hd' Hperm. unfold calculateOtsuThreshold, otsuSlot.
  now rewrite (buildHistogram_Permutation (pixels d) (pixels d'))
    by (auto using pixels_bytes).
Qed.

Lemma histTotal_app (l1 l2 : list Z) :
  histTotal (l1 ++ l2) = histTotal l1 + histTotal l2.
Proof.
  unfold histTotal. rewrite fold_left_app.
  now rewrite (fold_add_shift l2 (fold_left Z.add l1 0)).
Qed.

Lemma histTotal_firstn_S (h : list Z) :
  forall k : nat,
    histTotal (firstn (S k) h) = histTotal (firstn k h) + nth k h 0.
Proof.
  induction h as [|x h IH]; intros k.
  - rewrite !firstn_nil. destruct k; reflexivity.
  - destruct k as [|k].
    + cbn [firstn nth]. unfold histTotal. simpl. lia.
    + change (firstn (S (S k)) (x :: h)) with (x :: firstn (S k) h).
      change (firstn (S k) (x :: h)) with (x :: firstn k h).
      change (x :: firstn (S k) h) with ([x] ++ firstn (S k) h)%list.
      change (x :: firstn k h) with ([x] ++ firstn k h)%list.
      rewrite !histTotal_app, IH. cbn [nth]. lia.
Qed.

Lemma histTotal_nonneg (l : list Z) :
  Forall (fun x => 0 <= x) l -> 0 <= histTotal l.
Proof.
  induction 1 as [|x l Hx _ IH]; [unfold histTotal; simpl; lia|].
  change (x :: l) with ([x] ++ l)%list. rewrite histTotal_app.
  unfold histTotal at 1. simpl. lia.
Qed.

Lemma histTotal_positive_entry (l : list Z) :
  Forall (fun x => 0 <= x) l -> histTotal l <> 0 ->
  exists x, In x l /\ 0 < x.
Proof.
  induction 1 as [|x l Hx Hl IH]; intros Hne.
  - now unfold histTotal in Hne.
  - change (x :: l) with ([x] ++ l)%list in Hne. rewrite histTotal_app in Hne.
    unfold histTotal at 1 in Hne. simpl in Hne.
    destruct (Z.eq_dec x 0) as [->|Hx0].
    + destruct IH as (y & Hy & Hpos); [lia|]. exists y. split; [now right|lia].
    + exists x. split; [now left|lia].
Qed.

Lemma In_firstn_nth (h : list Z) :
  forall (n : nat) (x : Z),
    In x (firstn n h) -> exists i, (i < n)%nat /\ nth i h 0 = x.
Proof.
  induction h as [|y h IH]; intros n x Hin.
  - rewrite firstn_nil in Hin. destruct Hin.
  - destruct n as [|n]; [destruct Hin|].
    cbn [firstn] in Hin. destruct Hin as [->|Hin].
    + exists 0%nat. split; [lia|reflexivity].
    + destruct (IH n x Hin) as (i & Hi & Hnth).
      exists (S i). split; [lia|exact Hnth].
Qed.

Lemma In_skipn_nth (h : list Z) :
  forall (n : nat) (x : Z),
    In x (skipn n h) -> exists i, (n <= i)%nat /\ nth i h 0 = x.
Proof.
  induction h as [|y h IH]; intros n x Hin.
  - rewrite skipn_nil in Hin. destruct Hin.
  - destruct n as [|n].
    + cbn [skipn] in Hin. destruct (In_nth _ _ 0 Hin) as (i & _ & Hnth).
      exists i. split; [lia|exact Hnth].
    + cbn [skipn] in Hin. destruct (IH n x Hin) as (i & Hi & Hnth).
      exists (S i). split; [lia|exact Hnth].
Qed.

Lemma otsuScan_splits (h : list Z) (sum : Z) :
  Forall (fun x => 0 <= x) h ->
  forall (n : nat) (t : Z) (s : OtsuState),
    0 <= t ->
    wB s = histTotal (firstn (Z.to_nat t) h) ->
    threshold s = 0 \/ splits h (threshold s) ->
    threshold (otsuScan h (histTotal h) sum n t s) = 0 \/
    splits h (threshold (otsuScan h (histTotal h) sum n t s)).
Proof.
  intros Hpos. induction n as [|n IH]; intros t s Ht Hw Hs; [exact Hs|].
  cbn [otsuScan].
  assert (Hw' : wB s + slot h t = histTotal (firstn (Z.to_nat (t + 1)) h)).
  { replace (Z.to_nat (t + 1)) with (S (Z.to_nat t)) by lia.
    rewrite histTotal_firstn_S, Hw. reflexivity. }
  destruct (Z.eqb_spec (wB s + slot h t) 0) as [Hz|Hnz].
  - apply IH; [lia|exact Hw'|exact Hs].
  - destruct (Z.eqb_spec (histTotal h - (wB s + slot h t)) 0) as [Hfz|Hfnz];
      [exact Hs|].
    assert (Hsplit : splits h t).
    { pose proof (firstn_skipn (Z.to_nat (t + 1)) h) as Hcut.
      assert (Htot : histTotal h =
                     histTotal (firstn (Z.to_nat (t + 1)) h) +
                     histTotal (skipn (Z.to_nat (t + 1)) h))
        by (rewrite <- histTotal_app; now rewrite Hcut).
      destruct (histTotal_positive_entry (firstn (Z.to_nat (t + 1)) h))
        as (x & Hx & Hxpos).
      { rewrite <- Hcut in Hpos. now apply Forall_app in Hpos. }
      { now rewrite <- Hw'. }
      destruct (histTotal_positive_entry (skipn (Z.to_nat (t + 1)) h))
        as (y & Hy & Hypos).
      { rewrite <- Hcut in Hpos. now apply Forall_app in Hpos. }
      { rewrite <- Hw' in Htot. lia. }
      destruct (In_firstn_nth _ _ _ Hx) as (i & Hi & Hnthi).
      destruct (In_skipn_nth _ _ _ Hy) as (j & Hj & Hnthj).
      exists (Z.of_nat i), (Z.of_nat j). unfold slot. rewrite !Nat2Z.id.
      rewrite Hnthi, Hnthj. repeat split; lia. }
    destruct (maxVar s <? _)%float; apply IH; cbn [wB threshold];
      try lia; try exact Hw'; auto.
Qed.

Lemma buildHistogram_nonneg (ps : list Pixel) :
  Forall pixel_bytes ps -> Forall (fun x => 0 <= x) (buildHistogram ps).
Proof.
  intros Hb. apply Forall_forall. intros x Hin.
  destruct (In_nth _ _ 0 Hin) as (n & _ & Hnth).
  pose proof (buildHistogram_slot ps (Z.of_nat n) Hb (Nat2Z.is_nonneg n)) as H.
  unfold slot in H. rewrite Nat2Z.id in H. lia.
Qed.

Lemma populated_slot_has_pixel (ps : list Pixel) (i : Z) :
  Forall pixel_bytes ps -> 0 <= i -> 0 < slot (buildHistogram ps) i ->
  exists p, In p ps /\ otsuBin p = i.
Proof.
  intros Hb Hi Hpos. rewrite buildHistogram_slot in Hpos by assumption.
  destruct (filter (inSlot i) ps) as [|p l] eqn:E; [simpl in Hpos; lia|].
  assert (Hin : In p (filter (inSlot i) ps)) by (rewrite E; now left).
  apply filter_In in Hin. destruct Hin as [Hin Hslot].
  exists p. split; [exact Hin|]. now apply Z.eqb_eq.
Qed.

(** X8.  The slot Otsu's scan settles on is either the initial slot 0 or a
    slot that separates two pixels of the image: some pixel falls at or
    below it and some pixel above it. *)
Theorem otsu_slot_separates_pixels (d : list Z) :
  Forall byte_range d ->
  otsuSlot d = 0 \/ separates (otsuSlot d) (pixels d).
Proof.
  intros Hd. pose proof (pixels_bytes d Hd) as Hb.
  unfold otsuSlot.
  destruct (otsuScan_splits (buildHistogram (pixels d))
              (histWeighted (buildHistogram (pixels d)) 0 0)
              (buildHistogram_nonneg _ Hb) 256 0 otsuInit)
    as [H0|(i & j & Hi & Hj & Hpi & Hpj)];
    [lia|reflexivity|now left|now left|].
  right.
  destruct (populated_slot_has_pixel _ i Hb) as (p & Hp & Hbp); [lia|exact Hpi|].
  destruct (populated_slot_has_pixel _ j Hb) as (q & Hq & Hbq); [lia|exact Hpj|].
  exists p, q. repeat split; try assumption; lia.
Qed.

(** ** More on the CSV document *)

Lemma mapM_length {A B : Type} (f : A -> outcome B) :
  forall (xs : list A) (ys : list B),
    mapM f xs = Ok ys -> List.length ys = List.length xs.
Proof.
  induction xs as [|x xs IH]; intros ys H.
  - simpl in H. inversion H. reflexivity.
  - cbn [mapM] in H. destruct (f x) as [y|e]; cbn [bind] in H; [|discriminate].
    destruct (mapM f xs) as [ys'|e]; cbn [bind] in H; [|discriminate].
    inversion H. simpl. f_equal. now apply IH.
Qed.

(** X9.  The CSV table is rectangular: the header and every row that
    [downloadCSV] builds have six cells plus two per selected key. *)
Theorem csv_rows_match_header (st : State) (r : BatchRecord)
    (headers row : list string) :
  csvHeaders st = Ok headers ->
  csvRow st r = Ok row ->
  List.length headers =
    (6 + 2 * List.length (selectedKeys (state_selectedIndices st)))%nat /\
  List.length row = List.length headers.
Proof.
  unfold csvHeaders, csvRow. intros Hh Hr.
  destruct (mapM _ (selectedKeys (state_selectedIndices st))) as [vn|e] eqn:Evn
    in Hh; cbn [bind] in Hh; [|discriminate].
  destruct (mapM _ (selectedKeys (state_selectedIndices st))) as [wn|e] eqn:Ewn
    in Hh; cbn [bind] in Hh; [|discriminate].
  destruct (mapM _ (selectedKeys (state_selectedIndices st))) as [vc|e] eqn:Evc
    in Hr; cbn [bind] in Hr; [|discriminate].
  destruct (mapM _ (selectedKeys (state_selectedIndices st))) as [wc|e] eqn:Ewc
    in Hr; cbn [bind] in Hr; [|discriminate].
  apply mapM_length in Evn, Ewn, Evc, Ewc.
  inversion Hh. inversion Hr.
  cbn [app List.length]. rewrite !length_app. lia.
Qed.

Lemma csvContent_defined (st : State) (results : list BatchRecord) :
  (forall k, In k (selectedKeys (state_selectedIndices st)) ->
             get ALGORITHMS k <> None) ->
  (forall r k, In r results ->
     In k (selectedKeys (state_selectedIndices st)) ->
     get (indices_vegetation (result r)) k <> None /\
     get (indices_whole (result r)) k <> None) ->
  csvContent st results = Ok (specCsv st results).
Proof.
  intros Hres Hdef. unfold csvContent, specCsv.
  destruct (csvHeaders_line st Hres) as (headers & Hh & Hline).
  destruct (csvRows_lines st results Hdef) as (rows & Hr & Hlines).
  rewrite Hh. cbn [bind]. rewrite Hr. cbn [bind].
  fold newline. rewrite join_cons, Hline, Hlines. reflexivity.
Qed.

(** ** More on the batch *)

Lemma In_keys_get {A : Type} (o : JsObject A) (k : string) :
  In k (keys o) -> get o k <> None.
Proof.
  induction o as [|[k' v'] o IH]; simpl; [intros []|].
  intros [->|Hin].
  - now rewrite String.eqb_refl.
  - destruct (String.eqb k' k); [discriminate|now apply IH].
Qed.

Lemma resolves_selectedKeys (selectedIndices : SelectedIndices) :
  resolves selectedIndices ->
  forall k, In k (selectedKeys selectedIndices) -> get ALGORITHMS k <> None.
Proof.
  intros Hres k Hk. apply Hres. now apply selectedKeys_In.
Qed.

Lemma recordOf_defined (st : State) (fileName : string) (d : ImageData) :
  NoDup (keys (state_selectedIndices st)) ->
  resolves (state_selectedIndices st) ->
  exists r mask binaryData,
    analyzeImage (state_thresholdMethod st) (state_threshold st)
      (state_selectedIndices st) d = Ok (r, mask, binaryData) /\
    recordOf st fileName d = [{| filename := fileName; result := r |}] /\
    forall k, In k (selectedKeys (state_selectedIndices st)) ->
      get (indices_vegetation r) k <> None /\ get (indices_whole r) k <> None.
Proof.
  intros Hnd Hres.
  destruct (analyzeImage_run (state_thresholdMethod st) (state_threshold st)
              (state_selectedIndices st) d Hnd Hres)
    as (r & binaryData & Hrun & _).
  eexists r, _, binaryData. split; [exact Hrun|].
  split; [unfold recordOf; now rewrite Hrun|].
  destruct (analyzeImage_result_keys _ _ _ _ _ _ _ Hnd Hrun) as [Hv Hw].
  intros k Hk. split; apply In_keys_get; [rewrite Hv|rewrite Hw]; exact Hk.
Qed.

Lemma batchLoop_succeeds (st : State) :
  state_canvasReady st = true ->
  NoDup (keys (state_selectedIndices st)) ->
  resolves (state_selectedIndices st) ->
  forall (files : list File) (datas : list ImageData),
    Forall2 readable files datas ->
    forall results : list BatchRecord,
      batchLoop st files results =
        (loadCalls files, Ok (results ++ recordsOf st files datas)%list).
Proof.
  intros Hcanvas Hnd Hres files datas Hread.
  induction Hread as [|file d files datas (img & Hload & Hdata) _ IH];
    intros results.
  - simpl. now rewrite app_nil_r.
  - cbn [batchLoop]. rewrite Hload. unfold processImage.
    rewrite Hcanvas, Hdata. cbn [negb].
    destruct (recordOf_defined st (file_name file) d Hnd Hres)
      as (r & mask & binaryData & Hrun & Hrec & _).
    rewrite Hrun. rewrite IH.
    unfold recordsOf. cbn [combine flat_map fst snd]. rewrite Hrec.
    cbn [app]. now rewrite <- app_assoc.
Qed.

Lemma recordsOf_defined (st : State) :
  NoDup (keys (state_selectedIndices st)) ->
  resolves (state_selectedIndices st) ->
  forall (files : list File) (datas : list ImageData),
    List.length files = List.length datas ->
    map filename (recordsOf st files datas) = map file_name files /\
    forall r k, In r (recordsOf st files datas) ->
      In k (selectedKeys (state_selectedIndices st)) ->
      get (indices_vegetation (result r)) k <> None /\
      get (indices_whole (result r)) k <> None.
Proof.
  intros Hnd Hres. induction files as [|file files IH]; intros [|d datas] Hlen;
    try discriminate.
  - split; [reflexivity|intros r k []].
  - destruct (IH datas) as [Hnames Hdef]; [simpl in Hlen; lia|].
    destruct (recordOf_defined st (file_name file) d Hnd Hres)
      as (r0 & mask & binaryData & _ & Hrec & Hkeys).
    unfold recordsOf in *. cbn [combine flat_map fst snd]. rewrite Hrec.
    cbn [app map filename]. split; [now rewrite Hnames|].
    intros r k [<-|Hin] Hk; [now apply Hkeys|now apply Hdef].
Qed.

(** X11.  When the canvases are there, the selection is sound and every
    file of the batch can be read, the batch reads the files once each in
    order and downloads one CSV whose rows are the records of the files, in
    the order of the batch and under their file names; nothing is
    alerted. *)
Theorem processBatchImages_downloads (st : State) (batchFiles : list File)
    (datas : list ImageData) :
  state_canvasReady st = true ->
  NoDup (keys (state_selectedIndices st)) ->
  resolves (state_selectedIndices st) ->
  Forall2 readable batchFiles datas ->
  processBatchImages st batchFiles =
    (SetIsProcessing true :: loadCalls batchFiles ++
     [Download (specCsv st (recordsOf st batchFiles datas));
      SetIsProcessing false])%list /\
  map filename (recordsOf st batchFiles datas) = map file_name batchFiles.
Proof.
  intros Hcanvas Hnd Hres Hread.
  destruct (recordsOf_defined st Hnd Hres batchFiles datas
              (Forall2_length Hread)) as [Hnames Hdef].
  split; [|exact Hnames].
  unfold processBatchImages.
  rewrite (batchLoop_succeeds st Hcanvas Hnd Hres batchFiles datas Hread).
  cbn [bind app].
  rewrite csvContent_defined;
    [reflexivity|now apply resolves_selectedKeys|exact Hdef].
Qed.

(** X12.  Without a canvas [processImage] returns null for every image, and
    the batch neither fails nor skips the export: it reads every file and
    downloads a CSV that holds the header line only. *)
Theorem processBatchImages_without_canvas (st : State) (batchFiles : list File) :
  state_canvasReady st = false ->
  Forall (fun file => exists img, loadImage file = Ok img) batchFiles ->
  (forall k, In k (selectedKeys (state_selectedIndices st)) ->
             get ALGORITHMS k <> None) ->
  processBatchImages st batchFiles =
    (SetIsProcessing true :: loadCalls batchFiles ++
     [Download (specHeader (selectedKeys (state_selectedIndices st)));
      SetIsProcessing false])%list.
Proof.
  intros Hcanvas Hload Hres. unfold processBatchImages.
  rewrite (batchLoop_without_canvas st batchFiles Hcanvas Hload).
  cbn [bind app]. rewrite csvContent_defined; [|exact Hres|intros r k []].
  unfold specCsv. cbn [map prefixed]. now rewrite append_nil_r.
Qed.

(** ** The selection *)

Lemma ALGORITHMS_keys_NoDup : NoDup (keys ALGORITHMS).
Proof.
  assert (H : nodup string_dec (keys ALGORITHMS) = keys ALGORITHMS)
    by (vm_compute; reflexivity).
  rewrite <- H. apply NoDup_nodup.
Qed.

Lemma initialSelectedIndices_keys :
  keys initialSelectedIndices = keys ALGORITHMS.
Proof. reflexivity. Qed.

(** X13.  Every selection the page can reach, from the initial one through
    any changes of checkboxes, lists exactly the keys of the registry, each
    once and in the order of the registry; so every selected key names an
    entry of the registry and the analysis never meets an unknown key. *)
Theorem reachableSelection_sound (selectedIndices : SelectedIndices) :
  reachableSelection selectedIndices ->
  keys selectedIndices = keys ALGORITHMS /\
  NoDup (keys selectedIndices) /\
  resolves selectedIndices.
Proof.
  intros Hreach.
  assert (Hkeys : keys selectedIndices = keys ALGORITHMS).
  { induction Hreach as [|sel key checked _ IH Hin];
      [exact initialSelectedIndices_keys|].
    unfold onSelectChange. rewrite keys_assign_present; [exact IH|].
    now rewrite IH. }
  split; [exact Hkeys|]. split.
  - rewrite Hkeys. exact ALGORITHMS_keys_NoDup.
  - intros k Hin. apply In_keys_get. rewrite <- Hkeys.
    unfold keys. change k with (fst (k, true)). now apply in_map.
Qed.

(** ** The upload of a single image *)

(** X14.  When the canvases are there, the selection is sound and the first
    file can be read, the upload shows, in this order: the processing flag,
    the original image, the binary image, the result of [analyzeImage] on
    the pixel data, and the flag reset; nothing is alerted and the other
    files are not touched. *)
Theorem handleImageUpload_shows_result (st : State) (file : File)
    (others : list File) (d : ImageData) :
  state_canvasReady st = true ->
  NoDup (keys (state_selectedIndices st)) ->
  resolves (state_selectedIndices st) ->
  readable file d ->
  exists img r mask binaryData,
    loadImage file = Ok img /\
    analyzeImage (state_thresholdMethod st) (state_threshold st)
      (state_selectedIndices st) d = Ok (r, mask, binaryData) /\
    handleImageUpload st (file :: others) =
      [ Page (SetIsProcessing true);
        Page (LoadImage (file_name file));
        SetOriginalImage (img_src img);
        Page (PutImageData binaryData);
        Page (SetProcessedImage binaryData);
        Page (SetAnalysisResult r);
        Page (SetIsProcessing false) ].
Proof.
  intros Hcanvas Hnd Hres (img & Hload & Hdata).
  destruct (analyzeImage_run (state_thresholdMethod st) (state_threshold st)
              (state_selectedIndices st) d Hnd Hres)
    as (r & binaryData & Hrun & _).
  eexists img, r, _, binaryData. split; [exact Hload|]. split; [exact Hrun|].
  unfold handleImageUpload, processImage.
  rewrite Hload, Hcanvas, Hdata, Hrun. reflexivity.
Qed.

(** X15.  Without a file the upload does nothing.  When reading the file is
    rejected, the upload sets the flag, logs the error, shows the
    processing alert and resets the flag, and shows no image at all.  When
    the file is read and its analysis throws, the same happens after the
    original image of that file has been shown.  In both cases no binary
    image and no result are shown. *)
Theorem handleImageUpload_reports_failure (st : State) (file : File)
    (others : list File) (e : exn) :
  loadImage file = Throw e \/
  (exists img, loadImage file = Ok img /\
               snd (processImage st img false) = Throw e) ->
  handleImageUpload st [] = [] /\
  (loadImage file = Throw e ->
   handleImageUpload st (file :: others) =
     [ Page (SetIsProcessing true);
       Page (LoadImage (file_name file));
       Page (ConsoleError e);
       Page (Alert (state_language st) errors_processing);
       Page (SetIsProcessing false) ]) /\
  (forall img, loadImage file = Ok img ->
   handleImageUpload st (file :: others) =
     [ Page (SetIsProcessing true);
       Page (LoadImage (file_name file));
       SetOriginalImage (img_src img);
       Page (ConsoleError e);
       Page (Alert (state_language st) errors_processing);
       Page (SetIsProcessing false) ]).
Proof.
  intros Hfail. split; [reflexivity|]. split.
  - intros Hload. unfold handleImageUpload. now rewrite Hload.
  - intros img Hload.
    destruct Hfail as [Hthrow|(img' & Hload' & Hproc)];
      [rewrite Hload in Hthrow; discriminate|].
    rewrite Hload in Hload'. inversion Hload'; subst img'.
    unfold handleImageUpload. rewrite Hload.
    unfold processImage in *.
    destruct (negb (state_canvasReady st)); [discriminate|].
    destruct (getImageData img) as [imageData|e0].
    + destruct (analyzeImage _ _ _ imageData) as [[[r mask] binaryData]|e1];
        [discriminate|].
      cbn [snd] in Hproc. inversion Hproc. reflexivity.
    + cbn [snd] in Hproc. inversion Hproc. reflexivity.
Qed.

(** Without a canvas the upload fails silently: the original image is
    shown and the flag is reset, but no binary image, no result and no
    alert follow. *)
Theorem handleImageUpload_without_canvas (st : State) (file : File)
    (others : list File) (img : HTMLImageElement) :
  state_canvasReady st = false ->
  loadImage file = Ok img ->
  handleImageUpload st (file :: others) =
    [ Page (SetIsProcessing true);
      Page (LoadImage (file_name file));
      SetOriginalImage (img_src img);
      Page (SetIsProcessing false) ].
Proof.
  intros Hcanvas Hload. unfold handleImageUpload, processImage.
  now rewrite Hload, Hcanvas.
Qed.

(** ** An image without pixels *)



End Engine.

(** * The simple component

    The repository holds a second, smaller component
    ([components/VegetationAnalysis.tsx]): it thresholds the Excess Green of
    the raw channels against [threshold * 255], writes the binary image in
    place over the pixel data, and has no index, no Otsu and no batch.  It
    has its own [processImage] and [handleImageUpload]. *)

Module SimpleVariant.

(** [exg > threshold * 255] with [exg = 2 * g - r - b] on raw channels. *)
Definition isVegetation (threshold : float) (r g b : Z) : bool :=
  (threshold * 255 <? Z2F (2 * g - r - b))%float.

(** The loop over [data], which overwrites R, G and B of every pixel and
    leaves alpha.  A last group of three bytes is a full pixel; in a shorter
    last group a channel is [undefined], the comparison is false and the
    bytes that exist are set to 0. *)
Fixpoint binarize (threshold : float) (d : list Z) : list Z :=
  match d with
  | r :: g :: b :: a :: rest =>
      let v := if isVegetation threshold r g b then 255 else 0 in
      v :: v :: v :: a :: binarize threshold rest
  | r :: g :: b :: nil =>
      let v := if isVegetation threshold r g b then 255 else 0 in
      [v; v; v]
  | r :: g :: nil => [0; 0]
  | r :: nil => [0]
  | nil => []
  end.

(** The alpha bytes of a buffer. *)
Fixpoint alphas (d : list Z) : list Z :=
  match d with
  | _ :: _ :: _ :: a :: rest => a :: alphas rest
  | _ => []
  end.

(** What reading a file as a data URL and decoding it leads to: the reader
    fails and [onload] never runs, or its result is not a string, or it is
    a data URL, which decodes to an image or never loads. *)
Inductive reading (Image : Type) : Type :=
| ReadFailed
| ReadOther
| ReadUrl (result : string) (decoded : option Image).
Arguments ReadFailed {Image}.
Arguments ReadOther {Image}.
Arguments ReadUrl {Image} result decoded.

Section Component.

Variable File : Type.
Variable HTMLImageElement : Type.
Variable readAsDataURL : File -> reading HTMLImageElement.
Variable getImageData : HTMLImageElement -> outcome ImageData.

Definition processImage (canvasReady : bool) (threshold : float)
    (img : HTMLImageElement) : list uploadEffect * outcome unit :=
  if negb canvasReady then ([], Ok tt)
  else
    match getImageData img with
    | Throw e => ([], Throw e)
    | Ok imageData =>
        let binary := binarize threshold (data imageData) in
        ([Page (PutImageData binary); Page (SetProcessedImage binary)], Ok tt)
    end.

(** [processImage(img).finally(() => setIsProcessing(false))] runs inside
    [img.onload], itself inside [reader.onload]; no handler is installed
    for a failed read or a failed decode. *)
Definition handleImageUpload (canvasReady : bool) (threshold : float)
    (files : list File) : list uploadEffect :=
  match files with
  | [] => []
  | file :: _ =>
      (Page (SetIsProcessing true) ::
       match readAsDataURL file with
       | ReadUrl result (Some img) =>
           SetOriginalImage result ::
           fst (processImage canvasReady threshold img) ++
           [Page (SetIsProcessing false)]
       | _ => []
       end)%list
  end.

(** ** Properties *)

Lemma binarize_length (threshold : float) (d : list Z) :
  List.length (binarize threshold d) = List.length d.
Proof.
  induction d as [|r|r g|r g b|r g b a rest IH] using buffer_ind;
    try reflexivity.
  cbn [binarize List.length]. now rewrite IH.
Qed.

Lemma binarize_alphas (threshold : float) (d : list Z) :
  alphas (binarize threshold d) = alphas d.
Proof.
  induction d as [|r|r g|r g b|r g b a rest IH] using buffer_ind;
    try reflexivity.
  cbn [binarize alphas]. now rewrite IH.
Qed.

Lemma binarize_pixels (threshold : float) (d : list Z) :
  pixels (binarize threshold d) =
  map (fun p : Pixel =>
         let '(r, g, b) := p in
         if isVegetation threshold r g b then (255, 255, 255) else (0, 0, 0))
      (pixels d).
Proof.
  induction d as [|r|r g|r g b|r g b a rest IH] using buffer_ind;
    try reflexivity.
  - cbn [binarize pixels map]. now destruct (isVegetation threshold r g b).
  - cbn [binarize]. rewrite !pixels_quad. cbn [map]. rewrite IH.
    now destruct (isVegetation threshold r g b).
Qed.

(** X16.  The simple component's pass turns the pixel data into a binary
    image of the same length: every pixel becomes white when its raw
    Excess Green exceeds [threshold * 255] and black otherwise, and every
    alpha byte is kept. *)
Theorem binarize_binary_image (threshold : float) (d : list Z) :
  List.length (binarize threshold d) = List.length d /\
  alphas (binarize threshold d) = alphas d /\
  pixels (binarize threshold d) =
    map (fun p : Pixel =>
           let '(r, g, b) := p in
           if (threshold * 255 <? Z2F (2 * g - r - b))%float
           then (255, 255, 255) else (0, 0, 0))
        (pixels d).
Proof.
  split; [apply binarize_length|]. split; [apply binarize_alphas|].
  apply binarize_pixels.
Qed.

Lemma nonnegative_not_below_zero (x : float) :
  (0 <=? x)%float = true -> (x <? 0)%float = false.
Proof.
  rewrite leb_spec, ltb_spec.
  change (Prim2SF 0) with (S754_zero false).
  destruct (Prim2SF x) as [s|s| |s m e]; try destruct s; cbv; congruence.
Qed.

(** X17.  With a threshold whose scaled value is not negative, a pixel with
    three equal channels (black, white, any gray) is never vegetation: its
    raw Excess Green is 0, and it comes out black. *)
Theorem binarize_gray_is_black (threshold : float) (c a : Z) (rest : list Z) :
  (0 <=? threshold * 255)%float = true ->
  isVegetation threshold c c c = false /\
  binarize threshold (c :: c :: c :: a :: rest) =
    0 :: 0 :: 0 :: a :: binarize threshold rest.
Proof.
  intros Hpos.
  assert (Hveg : isVegetation threshold c c c = false).
  { unfold isVegetation. replace (2 * c - c - c) with 0 by lia.
    now apply nonnegative_not_below_zero. }
  split; [exact Hveg|]. cbn [binarize]. now rewrite Hveg.
Qed.

(** X18.  In the simple component the processing flag is reset only from
    inside the image's [onload].  When the file is read and decoded the
    upload sets the flag, shows the original image, then puts and shows the
    binary image unless the canvas is missing or reading its pixels throws,
    and resets the flag.  When the read or the decoding fails, setting the
    flag is the only effect: no reset and no alert. *)
Theorem handleImageUpload_reset_only_after_decoding (canvasReady : bool)
    (threshold : float) (file : File) (others : list File) :
  match readAsDataURL file with
  | ReadUrl result (Some img) =>
      handleImageUpload canvasReady threshold (file :: others) =
        (Page (SetIsProcessing true) :: SetOriginalImage result ::
         (if canvasReady
          then match getImageData img with
               | Ok d =>
                   [Page (PutImageData (binarize threshold (data d)));
                    Page (SetProcessedImage (binarize threshold (data d)))]
               | Throw _ => []
               end
          else []) ++
         [Page (SetIsProcessing false)])%list
  | _ =>
      handleImageUpload canvasReady threshold (file :: others) =
        [Page (SetIsProcessing true)]
  end.
Proof.
  unfold handleImageUpload.
  destruct (readAsDataURL file) as [| |result [img|]]; try reflexivity.
  unfold processImage. destruct canvasReady; cbn [negb]; [|reflexivity].
  destruct (getImageData img) as [d|e]; reflexivity.
Qed.

End Component.

(** A run of the pass: a leaf-green pixel, a gray one and a short tail. *)
Example binarize_sample :
  binarize 0.2 [10; 200; 30; 255; 90; 90; 90; 128; 7; 7] =
  [255; 255; 255; 255; 0; 0; 0; 128; 0; 0].
Proof. vm_compute. reflexivity. Qed.

Lemma binarize_gray_is_black_sample :
  isVegetation 0.2 90 90 90 = false /\
  binarize 0.2 [90; 90; 90; 128; 10; 200; 30; 255] =
    0 :: 0 :: 0 :: 128 :: binarize 0.2 [10; 200; 30; 255].
Proof.
  apply (binarize_gray_is_black 0.2 90 128 [10; 200; 30; 255]).
  reflexivity.
Defined.

End SimpleVariant.

(** * Runs on concrete inputs *)

Lemma sampleSelected_NoDup : NoDup (keys sampleSelected).
Proof.
  repeat constructor; simpl; intuition discriminate.
Defined.

Lemma sampleSelected_resolves : resolves Math_pow_sample sampleSelected.
Proof.
  intros k Hin. simpl in Hin.
  destruct Hin as [H|[H|[H|[H|[]]]]]; inversion H; subst; discriminate.
Defined.

Lemma sampleImage_wellFormed : wellFormed sampleImage.
Proof.
  unfold wellFormed, sampleImage, byte_range. simpl.
  repeat split; try lia. repeat constructor; lia.
Defined.

(** The analysis of the sample image with the threshold 0.2: one pixel of
    two is vegetation, and the black pixel turns the whole-image MGRVI into
    NaN. *)
Example analyzeImage_sample :
  analyzeImage Math_pow_sample exg 0.2 sampleSelected sampleImage =
  Ok (result sampleRecord, [true; false], [255; 255; 255; 255; 0; 0; 0; 255]).
Proof. vm_compute. reflexivity. Qed.

(** The CSV text of the sample record. *)
Example csvContent_sample :
  csvContent Math_pow_sample Number_toString_sample sampleState [sampleRecord] =
  Ok ("Filename,Total Pixels,Vegetation Pixels,Vegetation Coverage (%),Threshold Method,Threshold Value,Intensity (Vegetation),Excess Green Index (Vegetation),Modified Green Red Vegetation Index (Vegetation),Intensity (Whole),Excess Green Index (Whole),Modified Green Red Vegetation Index (Whole)"
      ++ String "010" "a.png,2,1,50.00,exg,0.200,0.3333,1.5000,0.9950,0.1667,0.7500,NaN").
Proof. vm_compute. reflexivity. Qed.

(** ** Counterexamples to the claims as first stated *)

(** C3 as stated: on the empty buffer the threshold would be 0.  It is -1. *)
Lemma otsu_empty_buffer_is_not_zero :
  calculateOtsuThreshold Math_pow_sample [] <> 0%float.
Proof.
  intros H. apply (f_equal (fun x => PrimFloat.eqb x 0)) in H.
  vm_compute in H. discriminate.
Qed.

(** C4 as stated: a uniform image in slot [bin] would give
    [(4 bin - 510) / 510].  A pure green pixel sits in slot 255, which would
    give 1; the threshold is -1. *)
Lemma otsu_uniform_green_is_not_its_slot :
  Forall byte_range greenBuffer /\
  pixels greenBuffer <> [] /\
  Forall (fun p => otsuBin p = 255) (pixels greenBuffer) /\
  calculateOtsuThreshold Math_pow_sample greenBuffer <>
    (Z2F (4 * 255 - 510) / 510)%float.
Proof.
  split; [repeat constructor; unfold byte_range; lia|].
  split; [discriminate|]. split; [repeat constructor|].
  intros H.
  apply (f_equal (fun x => PrimFloat.eqb x (Z2F (4 * 255 - 510) / 510))) in H.
  vm_compute in H. discriminate.
Qed.

(** ** Instances of the theorems *)

Lemma otsu_uniform_image_green :
  otsuSlot Math_pow_sample greenBuffer = 0 /\
  calculateOtsuThreshold Math_pow_sample greenBuffer = (-1)%float.
Proof.
  apply (otsu_uniform_image Math_pow_sample greenBuffer 255).
  - repeat constructor; unfold byte_range; lia.
  - discriminate.
  - repeat constructor.
Defined.

Lemma otsu_bins_and_threshold_in_range_sample :
  0 <= otsuBin (0, 255, 0) <= 255 /\
  Forall (fun p => 0 <= otsuBin p <= 255) (pixels (data sampleImage)) /\
  List.length (buildHistogram (pixels (data sampleImage))) = 256%nat /\
  histTotal (buildHistogram (pixels (data sampleImage))) =
    Z.of_nat (List.length (pixels (data sampleImage))) /\
  (-1 <=? calculateOtsuThreshold Math_pow_sample (data sampleImage))%float = true /\
  (calculateOtsuThreshold Math_pow_sample (data sampleImage) <=? 1)%float = true.
Proof.
  apply (otsu_bins_and_threshold_in_range Math_pow_sample 0 255 0 (data sampleImage));
    unfold byte_range; try lia.
  simpl. repeat constructor; lia.
Defined.


Lemma analyzeImage_classifies_sample :
  exists r mask binaryData,
    analyzeImage Math_pow_sample exg 0.2 sampleSelected sampleImage =
      Ok (r, mask, binaryData) /\
    mask = [true; false] /\
    vegetationPixels r = 1.
Proof.
  destruct (analyzeImage_classifies Math_pow_sample exg 0.2 sampleSelected
              sampleImage sampleSelected_NoDup sampleSelected_resolves)
    as (r & mask & binaryData & Hrun & Hmask & _ & HV).
  exists r, mask, binaryData.
  split; [exact Hrun|]. split; [exact Hmask|].
  rewrite HV, Hmask. reflexivity.
Defined.

Lemma degenerate_pixels_sample :
  exists r mask binaryData,
    analyzeImage Math_pow_sample exg 0.2 sampleSelected sampleImage =
      Ok (r, mask, binaryData) /\
    get (indices_whole r) "MGRVI" = Some nan.
Proof.
  destruct (degenerate_pixels_propagate_NaN Math_pow_sample
              (fun y _ => eq_refl)) as (_ & _ & _ & _ & _ & _ & _ & Hprop).
  apply (Hprop exg 0.2%float sampleSelected sampleImage "MGRVI").
  - exact sampleSelected_NoDup.
  - exact sampleSelected_resolves.
  - simpl. auto.
  - auto.
  - simpl. auto.
Defined.

Lemma csvContent_layout_sample :
  csvContent Math_pow_sample Number_toString_sample sampleState [sampleRecord] =
  Ok (specDocument Math_pow_sample Number_toString_sample sampleState
        [sampleRecord]) /\
  chosenKeys (state_selectedIndices sampleState) = ["INT"; "ExG"; "MGRVI"].
Proof.
  split; [|reflexivity].
  apply (csvContent_layout Math_pow_sample Number_toString_sample sampleState
           [sampleRecord]).
  - intros k Hin. simpl in Hin.
    destruct Hin as [<-|[<-|[<-|[]]]]; discriminate.
  - intros r k [<-|[]] Hin. simpl in Hin.
    destruct Hin as [<-|[<-|[<-|[]]]]; split; discriminate.
Defined.

Lemma processBatchImages_aborts_sample :
  exists passed bad rest e,
    sampleBatch = (passed ++ bad :: rest)%list /\
    Forall (filePasses Math_pow_sample SampleFile ImageData snd Ok sampleState)
           passed /\
    fileFails Math_pow_sample SampleFile ImageData snd Ok sampleState bad e /\
    processBatchImages Math_pow_sample Number_toString_sample
      SampleFile fst ImageData snd Ok sampleState sampleBatch =
      (SetIsProcessing true :: loadCalls SampleFile fst (passed ++ [bad]) ++
       [ConsoleError e; Alert en errors_batch; SetIsProcessing false])%list /\
    forall csv,
      ~ In (Download csv)
          (processBatchImages Math_pow_sample Number_toString_sample
             SampleFile fst ImageData snd Ok sampleState sampleBatch).
Proof.
  apply (processBatchImages_aborts Math_pow_sample Number_toString_sample
           SampleFile fst ImageData snd Ok sampleState sampleBatch).
  exists ("b.png", Throw (Rejected "b.png")), (Rejected "b.png").
  split; [simpl; auto|]. left. reflexivity.
Defined.

(** ** Instances of the further theorems *)

Lemma analyzeImage_binary_image_sample :
  exists r mask binaryData,
    analyzeImage Math_pow_sample exg 0.2 sampleSelected sampleImage =
      Ok (r, mask, binaryData) /\
    pixels binaryData = [(255, 255, 255); (0, 0, 0)] /\
    List.length binaryData = 8%nat.
Proof.
  destruct (analyzeImage_binary_image Math_pow_sample exg 0.2 sampleSelected
              sampleImage sampleImage_wellFormed sampleSelected_NoDup
              sampleSelected_resolves)
    as (r & mask & binaryData & Hrun & Hpix & _ & Hlen & _).
  exists r, mask, binaryData. split; [exact Hrun|]. split; [exact Hpix|exact Hlen].
Defined.

Lemma analyzeImage_counts_bounded_sample :
  exists r mask binaryData,
    analyzeImage Math_pow_sample exg 0.2 sampleSelected sampleImage =
      Ok (r, mask, binaryData) /\
    0 <= vegetationPixels r <= totalPixels r /\
    Z.of_nat (List.length mask) = totalPixels r /\
    totalPixels r = 2.
Proof.
  exact (analyzeImage_counts_bounded Math_pow_sample exg 0.2 sampleSelected
           sampleImage sampleImage_wellFormed sampleSelected_NoDup
           sampleSelected_resolves).
Defined.

Lemma analyzeImage_selected_keys_sample :
  exists r mask binaryData,
    analyzeImage Math_pow_sample exg 0.2 sampleSelected sampleImage =
      Ok (r, mask, binaryData) /\
    keys (indices_vegetation r) = ["INT"; "ExG"; "MGRVI"] /\
    keys (indices_whole r) = ["INT"; "ExG"; "MGRVI"].
Proof.
  exact (analyzeImage_selected_keys Math_pow_sample exg 0.2 sampleSelected
           sampleImage sampleSelected_NoDup sampleSelected_resolves).
Defined.

Lemma analyzeImage_unknown_key_sample :
  analyzeImage Math_pow_sample exg 0.2
    [("INT", true); ("NOPE", true); ("ExG", true)] sampleImage =
  Throw (TypeError "NOPE").
Proof.
  apply (analyzeImage_unknown_key Math_pow_sample exg 0.2
           [("INT", true)] [("ExG", true)] "NOPE" sampleImage).
  - intros k [H|[]]. inversion H. discriminate.
  - reflexivity.
  - discriminate.
Defined.

Lemma histogram_counts_pixels_sample :
  slot (buildHistogram (pixels (data sampleImage))) 128 =
  Z.of_nat (List.length (filter (fun p => otsuBin p =? 128)
                                (pixels (data sampleImage)))).
Proof.
  apply (histogram_counts_pixels (data sampleImage) 128); [|lia].
  simpl. repeat constructor; unfold byte_range; lia.
Defined.

Lemma otsu_order_independent_sample :
  calculateOtsuThreshold Math_pow_sample (data sampleImage) =
  calculateOtsuThreshold Math_pow_sample swappedBuffer.
Proof.
  apply (otsu_order_independent Math_pow_sample (data sampleImage) swappedBuffer).
  - simpl. repeat constructor; unfold byte_range; lia.
  - unfold swappedBuffer. repeat constructor; unfold byte_range; lia.
  - simpl. apply perm_swap.
Defined.

Lemma otsu_slot_separates_pixels_sample :
  otsuSlot Math_pow_sample (data sampleImage) = 0 \/
  separates (otsuSlot Math_pow_sample (data sampleImage))
            (pixels (data sampleImage)).
Proof.
  apply (otsu_slot_separates_pixels Math_pow_sample (data sampleImage)).
  simpl. repeat constructor; unfold byte_range; lia.
Defined.

Lemma csv_rows_match_header_sample :
  exists headers row,
    csvHeaders Math_pow_sample sampleState = Ok headers /\
    csvRow Number_toString_sample sampleState sampleRecord = Ok row /\
    List.length headers = 12%nat /\
    List.length row = List.length headers.
Proof.
  eexists. eexists.
  split; [vm_compute; reflexivity|]. split; [vm_compute; reflexivity|].
  apply (csv_rows_match_header Math_pow_sample Number_toString_sample
           sampleState sampleRecord); vm_compute; reflexivity.
Defined.

Lemma sampleBatch_readable :
  Forall2 (readable SampleFile ImageData snd Ok)
    [("a.png", Ok sampleImage); ("c.png", Ok sampleImage)]
    [sampleImage; sampleImage].
Proof.
  repeat constructor; exists sampleImage; split; reflexivity.
Defined.

Lemma processBatchImages_downloads_sample :
  processBatchImages Math_pow_sample Number_toString_sample
    SampleFile fst ImageData snd Ok sampleState
    [("a.png", Ok sampleImage); ("c.png", Ok sampleImage)] =
    (SetIsProcessing true ::
     loadCalls SampleFile fst
       [("a.png", Ok sampleImage); ("c.png", Ok sampleImage)] ++
     [Download
        (specCsv Math_pow_sample Number_toString_sample sampleState
           (recordsOf Math_pow_sample SampleFile fst sampleState
              [("a.png", Ok sampleImage); ("c.png", Ok sampleImage)]
              [sampleImage; sampleImage]));
      SetIsProcessing false])%list /\
  map filename
    (recordsOf Math_pow_sample SampleFile fst sampleState
       [("a.png", Ok sampleImage); ("c.png", Ok sampleImage)]
       [sampleImage; sampleImage]) =
  map fst [("a.png", Ok sampleImage); ("c.png", Ok sampleImage)].
Proof.
  apply (processBatchImages_downloads Math_pow_sample Number_toString_sample
           SampleFile fst ImageData snd Ok sampleState).
  - reflexivity.
  - exact sampleSelected_NoDup.
  - exact sampleSelected_resolves.
  - exact sampleBatch_readable.
Defined.

Lemma processBatchImages_without_canvas_sample :
  processBatchImages Math_pow_sample Number_toString_sample
    SampleFile fst ImageData snd Ok sampleStateNoCanvas
    [("a.png", Ok sampleImage); ("c.png", Ok sampleImage)] =
    (SetIsProcessing true ::
     loadCalls SampleFile fst
       [("a.png", Ok sampleImage); ("c.png", Ok sampleImage)] ++
     [Download (specHeader Math_pow_sample (selectedKeys sampleSelected));
      SetIsProcessing false])%list.
Proof.
  apply (processBatchImages_without_canvas Math_pow_sample Number_toString_sample
           SampleFile fst ImageData snd Ok sampleStateNoCanvas).
  - reflexivity.
  - repeat constructor; exists sampleImage; reflexivity.
  - intros k Hin. simpl in Hin.
    destruct Hin as [<-|[<-|[<-|[]]]]; discriminate.
Defined.

Lemma reachableSelection_sound_sample :
  keys (onSelectChange (initialSelectedIndices Math_pow_sample) "VEG" false) =
    keys (ALGORITHMS Math_pow_sample) /\
  NoDup (keys (onSelectChange (initialSelectedIndices Math_pow_sample) "VEG" false)) /\
  resolves Math_pow_sample
    (onSelectChange (initialSelectedIndices Math_pow_sample) "VEG" false).
Proof.
  apply (reachableSelection_sound Math_pow_sample).
  apply reach_change; [apply reach_initial|].
  simpl. repeat (first [left; reflexivity | right]).
Defined.

Lemma handleImageUpload_shows_result_sample :
  exists img r mask binaryData,
    snd ("a.png", Ok sampleImage) = Ok img /\
    analyzeImage Math_pow_sample exg 0.2 sampleSelected sampleImage =
      Ok (r, mask, binaryData) /\
    handleImageUpload Math_pow_sample SampleFile fst ImageData snd Ok sample_src
      sampleState [("a.png", Ok sampleImage); ("c.png", Ok sampleImage)] =
      [ Page (SetIsProcessing true);
        Page (LoadImage "a.png");
        SetOriginalImage (sample_src img);
        Page (PutImageData binaryData);
        Page (SetProcessedImage binaryData);
        Page (SetAnalysisResult r);
        Page (SetIsProcessing false) ].
Proof.
  apply (handleImageUpload_shows_result Math_pow_sample SampleFile fst ImageData
           snd Ok sample_src sampleState ("a.png", Ok sampleImage)
           [("c.png", Ok sampleImage)] sampleImage).
  - reflexivity.
  - exact sampleSelected_NoDup.
  - exact sampleSelected_resolves.
  - exists sampleImage. split; reflexivity.
Defined.


Lemma handleImageUpload_reports_failure_sample :
  handleImageUpload Math_pow_sample SampleFile fst ImageData snd
    sampleGetImageData sample_src sampleState [] = [] /\
  handleImageUpload Math_pow_sample SampleFile fst ImageData snd
    sampleGetImageData sample_src sampleState
    [("b.png", Throw (Rejected "b.png"))] =
    [ Page (SetIsProcessing true);
      Page (LoadImage "b.png");
      Page (ConsoleError (Rejected "b.png"));
      Page (Alert en errors_processing);
      Page (SetIsProcessing false) ] /\
  handleImageUpload Math_pow_sample SampleFile fst ImageData snd
    sampleGetImageData sample_src sampleState
    [("e.png", Ok emptyImage); ("a.png", Ok sampleImage)] =
    [ Page (SetIsProcessing true);
      Page (LoadImage "e.png");
      SetOriginalImage (sample_src emptyImage);
      Page (ConsoleError (DOMException "IndexSizeError"));
      Page (Alert en errors_processing);
      Page (SetIsProcessing false) ].
Proof.
  destruct (handleImageUpload_reports_failure Math_pow_sample SampleFile fst
              ImageData snd sampleGetImageData sample_src sampleState
              ("b.png", Throw (Rejected "b.png")) [] (Rejected "b.png")
              (or_introl eq_refl)) as (Hnone & Hrejected & _).
  destruct (handleImageUpload_reports_failure Math_pow_sample SampleFile fst
              ImageData snd sampleGetImageData sample_src sampleState
              ("e.png", Ok emptyImage) [("a.png", Ok sampleImage)]
              (DOMException "IndexSizeError")
              (or_intror (ex_intro _ emptyImage (conj eq_refl eq_refl))))
    as (_ & _ & Hthrown).
  split; [exact Hnone|]. split; [exact (Hrejected eq_refl)|].
  exact (Hthrown emptyImage eq_refl).
Defined.


Lemma handleImageUpload_without_canvas_sample :
  handleImageUpload Math_pow_sample SampleFile fst ImageData snd Ok sample_src
    sampleStateNoCanvas [("a.png", Ok sampleImage)] =
    [ Page (SetIsProcessing true);
      Page (LoadImage "a.png");
      SetOriginalImage (sample_src sampleImage);
      Page (SetIsProcessing false) ].
Proof.
  apply (handleImageUpload_without_canvas Math_pow_sample SampleFile fst
           ImageData snd Ok sample_src sampleStateNoCanvas
           ("a.png", Ok sampleImage) [] sampleImage); reflexivity.
Defined.

(** The sample batch, whose second file is rejected: the first two files
    are read, the third is not, and the error shown is the second's. *)
Example processBatchImages_sample_trace :
  processBatchImages Math_pow_sample Number_toString_sample
    SampleFile fst ImageData snd Ok sampleState sampleBatch =
  [ SetIsProcessing true; LoadImage "a.png"; LoadImage "b.png";
    ConsoleError (Rejected "b.png"); Alert en errors_batch;
    SetIsProcessing false ].
Proof. vm_compute. reflexivity. Qed.
